(** * A shallow embedding of git-module's commit helpers and code search

    Sources embedded: [commit.go] (parents, submodules, file status,
    per-collaborator statistics) and the code-search file (count phase,
    paginated fetch phase, composed search).

    Every call to the external git process ([RunPipesInDir], [RunInDir],
    [RunInDirPipeline]) is replaced by its observable result, the bytes it
    printed on stdout and the error it returned: these become parameters of
    the embedded functions.  Go strings are byte strings and are modelled as
    [string] (a list of 8-bit [ascii] characters). Go's [int] and [int64]
    are 64-bit two's complement and are modelled as [Z] with [wrap64]
    written out where the code multiplies or adds.  A Go run-time panic
    (index or slice out of range) is the [Panic] outcome. *)

From Stdlib Require Import ZArith String Ascii List Bool Lia.
From stdpp Require Import base gmap strings.
Import ListNotations.

Open Scope string_scope.
Open Scope Z_scope.

(* ------------------------------------------------------------------ *)
(** ** Go run-time model *)

Definition MaxInt64 : Z := 2 ^ 63 - 1.
Definition MinInt64 : Z := - 2 ^ 63.

(** Two's complement wrap-around of a 64-bit [int]/[int64]. *)
Definition wrap64 (z : Z) : Z := (z + 2 ^ 63) mod 2 ^ 64 - 2 ^ 63.

(** The errors the embedded code can return. *)
Inductive error :=
| ErrNotExist                   (* ErrNotExist{"", ""} *)
| ErrEOF                        (* io.EOF *)
| ErrSyntax (num : string)      (* strconv.ErrSyntax *)
| ErrRange (num : string)       (* strconv.ErrRange *)
| ErrProcess (msg : string)     (* failure reported by the git process *)
| ErrWithStderr (e : error) (stderr : string).
                                (* [e] with the diagnostic text attached *)

(** Result of a Go call: its return value and [error], or a panic. *)
Inductive go (A : Type) :=
| Ret (a : A) (err : option error)
| Panic.
Arguments Ret {A} a err.
Arguments Panic {A}.

(* ------------------------------------------------------------------ *)
(** ** The [strings] and [bufio] functions the code uses *)

Definition nl : ascii := "010"%char.
Definition cr : ascii := "013"%char.
Definition NL : string := String nl EmptyString.
Definition TAB : string := String "009"%char EmptyString.

(** Number of occurrences of the byte [b] in [s]. *)
Fixpoint count_byte (b : ascii) (s : string) : nat :=
  match s with
  | EmptyString => 0
  | String c s' => (if Ascii.eqb c b then 1 else 0) + count_byte b s'
  end%nat.

(** [strings.Split(s, sep)] for a non-empty [sep]: left to right, every
    non-overlapping occurrence of [sep] ends a piece.  [skip] counts the
    characters of a separator still to be dropped. *)
Fixpoint split_from (sep : string) (skip : nat) (s : string) : list string :=
  match s with
  | EmptyString => [EmptyString]
  | String c s' =>
      match skip with
      | S k => split_from sep k s'
      | O =>
          if String.prefix sep s
          then EmptyString :: split_from sep (Nat.pred (String.length sep)) s'
          else match split_from sep 0 s' with
               | p :: ps => String c p :: ps
               | [] => [String c EmptyString]
               end
      end
  end.

Definition Split (s sep : string) : list string := split_from sep 0 s.

(** [strings.SplitN(s, sep, 2)] for a non-empty [sep]. *)
Definition SplitN2 (s sep : string) : list string :=
  match String.index 0 sep s with
  | None => [s]
  | Some i =>
      [substring 0 i s;
       substring (i + String.length sep)
         (String.length s - (i + String.length sep)) s]
  end.

(** [strings.HasPrefix(s, prefix)]. *)
Definition HasPrefix (s p : string) : bool := String.prefix p s.

(** [bufio.Reader.ReadString('\n')] on a fresh reader: the data up to and
    including the first newline, or all the data and [io.EOF]. *)
Fixpoint ReadString (s : string) : string * option error :=
  match s with
  | EmptyString => (EmptyString, Some ErrEOF)
  | String c s' =>
      if Ascii.eqb c nl then (String c EmptyString, None)
      else let '(h, e) := ReadString s' in (String c h, e)
  end.

(** [strings.Trim(s, " ")]: the cutset is the single ASCII byte ' '. *)
Fixpoint trim_left_byte (b : ascii) (s : string) : string :=
  match s with
  | EmptyString => EmptyString
  | String c s' => if Ascii.eqb c b then trim_left_byte b s' else s
  end.

Definition trim_right_byte (b : ascii) (s : string) : string :=
  string_of_list_ascii
    (rev (list_ascii_of_string
            (trim_left_byte b (string_of_list_ascii
                                 (rev (list_ascii_of_string s)))))).

Definition Trim (s cutset : string) : string :=
  match cutset with
  | String b EmptyString => trim_right_byte b (trim_left_byte b s)
  | _ => s  (* only the one-byte cutset " " occurs in the code *)
  end.

(** Go slice expression [l[low : high]] on a slice whose capacity is its
    length; [None] is the run-time panic "slice bounds out of range". *)
Definition go_slice {A} (l : list A) (low high : Z) : option (list A) :=
  if (0 <=? low) && (low <=? high) && (high <=? Z.of_nat (List.length l))
  then Some (firstn (Z.to_nat (high - low)) (skipn (Z.to_nat low) l))
  else None.

(* ------------------------------------------------------------------ *)
(** ** Code search *)

Record Match := mkMatch {
  CommitID : string;
  Path : string;
  Content : string
}.

Record MatchesResults := mkMatchesResults {
  NumberMatches : Z;
  Results : list Match
}.

Record RepoSearchOptions := mkRepoSearchOptions {
  Keyword : string;
  OwnerID : Z;
  OrderBy : string;
  Page : Z;
  PageSize : Z
}.

(** [getNumberOfCodeMatches]: [stdout] and [err] are what
    [cmd.RunPipesInDir(repoPath)] returned for the count query. *)
Definition getNumberOfCodeMatches (stdout : string) (err : option error)
  : Z * option error :=
  if (String.length stdout <=? 0)%nat then (0, None)
  else (Z.of_nat (List.length (Split stdout (String nl EmptyString))) - 1, err).

(** Lines 72-79 of [getRangeOfMatches]: [limit] and the slice
    [results[(opts.Page - 1) * opts.PageSize : limit]]. *)
Definition page_window (results : list string) (opts : RepoSearchOptions)
  : option (list string) :=
  let n := Z.of_nat (List.length results) in
  let limit :=
    if wrap64 (Page opts * PageSize opts) <? n
    then wrap64 (Page opts * PageSize opts) else n in
  go_slice results (wrap64 (wrap64 (Page opts - 1) * PageSize opts)) limit.

(** The loop of lines 81-95: read each block's header line, split it on
    ':' and build a [Match]; [err] is the outer [err] returned at the end
    (the loop's [err] shadows it). *)
Fixpoint parse_blocks (results : list string) (matches : list Match)
  (err : option error) : go (list Match) :=
  match results with
  | [] => Ret matches err
  | result :: rest =>
      match ReadString result with
      | (_, Some e) => Ret [] (Some e)
      | (header, None) =>
          match Split header ":" with
          | info0 :: info1 :: _ =>
              parse_blocks rest
                (matches ++ [mkMatch info0 (Trim info1 " ") result]) err
          | _ => Panic   (* info[1] out of range *)
          end
      end
  end.

Definition getRangeOfMatches (stdout : string) (err : option error)
  (opts : RepoSearchOptions) : go (list Match) :=
  if (String.length stdout <=? 0)%nat then Ret [] None
  else
    let results := Split stdout (String nl (String nl EmptyString)) in
    match page_window results opts with
    | None => Panic
    | Some results => parse_blocks results [] err
    end.

(** [ShearchMatchesThisRepo]: the two phases run two independent git
    invocations; their outputs are the parameters. *)
Definition ShearchMatchesThisRepo (count_out : string) (count_err : option error)
  (fetch_out : string) (fetch_err : option error) (opts : RepoSearchOptions)
  : go (option MatchesResults) :=
  let '(n, err) := getNumberOfCodeMatches count_out count_err in
  match err with
  | Some e => Ret None (Some e)
  | None =>
      match getRangeOfMatches fetch_out fetch_err opts with
      | Panic => Panic
      | Ret _ (Some e) => Ret None (Some e)
      | Ret rs None => Ret (Some (mkMatchesResults n rs)) None
      end
  end.


(* ------------------------------------------------------------------ *)
(** ** UTF-8, [unicode.IsSpace], [strings.TrimSpace], [strings.Fields] *)

(** Bytes of a Go string. *)
Definition bytes_of (s : string) : list Z :=
  map (fun c => Z.of_nat (nat_of_ascii c)) (list_ascii_of_string s).

Definition string_of_bytes (l : list Z) : string :=
  string_of_list_ascii (map (fun b => ascii_of_nat (Z.to_nat b)) l).

Definition RuneError : Z := 65533.

Definition in_range (lo hi b : Z) : bool := (lo <=? b) && (b <=? hi).

(** [utf8.DecodeRune]: the first rune and its width; an invalid or
    truncated sequence is [(RuneError, 1)]. *)
Definition DecodeRune (p : list Z) : Z * nat :=
  match p with
  | [] => (RuneError, 0%nat)
  | b0 :: rest =>
      if b0 <? 128 then (b0, 1%nat)
      else if in_range 194 223 b0 then
        match rest with
        | b1 :: _ =>
            if in_range 128 191 b1
            then ((b0 - 192) * 64 + (b1 - 128), 2%nat) else (RuneError, 1%nat)
        | _ => (RuneError, 1%nat)
        end
      else if in_range 224 239 b0 then
        let lo := if b0 =? 224 then 160 else 128 in
        let hi := if b0 =? 237 then 159 else 191 in
        match rest with
        | b1 :: b2 :: _ =>
            if in_range lo hi b1 && in_range 128 191 b2
            then (((b0 - 224) * 64 + (b1 - 128)) * 64 + (b2 - 128), 3%nat)
            else (RuneError, 1%nat)
        | _ => (RuneError, 1%nat)
        end
      else if in_range 240 244 b0 then
        let lo := if b0 =? 240 then 144 else 128 in
        let hi := if b0 =? 244 then 143 else 191 in
        match rest with
        | b1 :: b2 :: b3 :: _ =>
            if in_range lo hi b1 && in_range 128 191 b2 && in_range 128 191 b3
            then ((((b0 - 240) * 64 + (b1 - 128)) * 64 + (b2 - 128)) * 64
                  + (b3 - 128), 4%nat)
            else (RuneError, 1%nat)
        | _ => (RuneError, 1%nat)
        end
      else (RuneError, 1%nat)
  end.

(** [utf8.RuneStart]. *)
Definition RuneStart (b : Z) : bool := negb (Z.land b 192 =? 128).

(** [utf8.DecodeLastRune]: scan back at most three bytes before the last
    one for a rune start, decode from there, and accept the rune only if
    it ends exactly at the end of [p]. *)
Definition DecodeLastRune (p : list Z) : Z * nat :=
  match rev p with
  | [] => (RuneError, 0%nat)
  | b :: before =>
      if b <? 128 then (b, 1%nat)
      else
        let fix find (k : nat) (bs : list Z) : option nat :=
          match k, bs with
          | O, _ => None
          | _, [] => None
          | S k', c :: bs' =>
              if RuneStart c then Some (4 - k)%nat else find k' bs'
          end in
        match find 3%nat before with
        | None => (RuneError, 1%nat)
        | Some back =>
            let start := (List.length p - S back)%nat in
            let '(r, size) := DecodeRune (skipn start p) in
            if (start + size =? List.length p)%nat then (r, size)
            else (RuneError, 1%nat)
        end
  end.

(** [unicode.IsSpace]: the Latin-1 spaces, then the [White_Space] table. *)
Definition IsSpace (r : Z) : bool :=
  if r <=? 255 then
    existsb (Z.eqb r) [9; 10; 11; 12; 13; 32; 133; 160]
  else
    (r =? 5760) || in_range 8192 8202 r || (r =? 8232) || (r =? 8233)
    || (r =? 8239) || (r =? 8287) || (r =? 12288).

(** Left-to-right decoding of a byte string into runes with their bytes,
    as [for _, r := range s] does; [fuel] is the length of the input. *)
Fixpoint runes_fuel (fuel : nat) (p : list Z) : list (Z * list Z) :=
  match fuel with
  | O => []
  | S f =>
      match p with
      | [] => []
      | _ =>
          let '(r, n) := DecodeRune p in
          (r, firstn n p) :: runes_fuel f (skipn n p)
      end
  end.

Definition runes (p : list Z) : list (Z * list Z) := runes_fuel (List.length p) p.

(** [strings.TrimLeftFunc(s, unicode.IsSpace)]. *)
Fixpoint trim_left_runes (rs : list (Z * list Z)) : list Z :=
  match rs with
  | [] => []
  | (r, bs) :: rs' => if IsSpace r then trim_left_runes rs' else concat (bs :: map snd rs')
  end.

(** [strings.TrimRightFunc(s, unicode.IsSpace)], decoding from the end. *)
Fixpoint trim_right_fuel (fuel : nat) (p : list Z) : list Z :=
  match fuel with
  | O => p
  | S f =>
      match p with
      | [] => []
      | _ =>
          let '(r, n) := DecodeLastRune p in
          if IsSpace r then trim_right_fuel f (firstn (List.length p - n) p)
          else p
      end
  end.

(** [strings.TrimSpace]: its ASCII fast path agrees with
    [TrimRightFunc(TrimLeftFunc(s, unicode.IsSpace), unicode.IsSpace)],
    which it calls as soon as it meets a non-ASCII byte. *)
Definition TrimSpace (s : string) : string :=
  let l := trim_left_runes (runes (bytes_of s)) in
  string_of_bytes (trim_right_fuel (List.length l) l).

(** [strings.Fields]: the maximal runs of non-space runes.  Its ASCII
    fast path uses the same six ASCII spaces as [unicode.IsSpace]. *)
Fixpoint fields_runes (rs : list (Z * list Z)) : list (list Z) :=
  match rs with
  | [] => []
  | (r, bs) :: rs' =>
      if IsSpace r then fields_runes rs'
      else match rs' with
           | (r', _) :: _ =>
               if IsSpace r' then bs :: fields_runes rs'
               else match fields_runes rs' with
                    | f :: fs => app bs f :: fs
                    | [] => [bs]
                    end
           | [] => [bs]
           end
  end.

Definition Fields (s : string) : list string :=
  map string_of_bytes (fields_runes (runes (bytes_of s))).

(* ------------------------------------------------------------------ *)
(** ** [strconv.ParseInt(s, 10, 64)] *)

Definition MaxUint64 : Z := 2 ^ 64 - 1.

Inductive num_error := NumOk | NumSyntax | NumRange.

(** The digit loop of [strconv.ParseUint(s, 10, 64)]: a non-digit is a
    syntax error (value 0); overflow stops at once with [maxVal]. *)
Fixpoint parse_uint_digits (n : Z) (s : string) : Z * num_error :=
  match s with
  | EmptyString => (n, NumOk)
  | String c s' =>
      let d := Z.of_nat (nat_of_ascii c) - 48 in
      if in_range 0 9 d then
        if MaxUint64 / 10 + 1 <=? n then (MaxUint64, NumRange)
        else
          let n1 := n * 10 + d in
          if MaxUint64 <? n1 then (MaxUint64, NumRange)
          else parse_uint_digits n1 s'
      else (0, NumSyntax)
  end.

Definition ParseUint (s : string) : Z * num_error :=
  match s with
  | EmptyString => (0, NumSyntax)
  | _ => parse_uint_digits 0 s
  end.

Definition ParseInt (s : string) : Z * option error :=
  match s with
  | EmptyString => (0, Some (ErrSyntax s))
  | String c rest =>
      let '(neg, body) :=
        if Ascii.eqb c "+"%char then (false, rest)
        else if Ascii.eqb c "-"%char then (true, rest)
        else (false, s) in
      match ParseUint body with
      | (_, NumSyntax) => (0, Some (ErrSyntax s))
      | (un, _) =>
          if negb neg && (2 ^ 63 <=? un) then (MaxInt64, Some (ErrRange s))
          else if neg && (2 ^ 63 <? un) then (MinInt64, Some (ErrRange s))
          else (if neg then - un else un, None)
      end
  end.

(* ------------------------------------------------------------------ *)
(** ** [bufio.Scanner] with [bufio.ScanLines] *)

Definition MaxScanTokenSize : N := 65536.

(** [dropCR]: a final carriage return is removed from a line. *)
Definition dropCR (s : string) : string :=
  match rev (list_ascii_of_string s) with
  | c :: rest => if Ascii.eqb c cr then string_of_list_ascii (rev rest) else s
  | [] => s
  end.

(** The lines a [bufio.Scanner] yields: the newline-terminated lines and a
    non-empty final fragment, each with [dropCR] applied.  A line of
    [MaxScanTokenSize] bytes or more fills the buffer without a newline:
    [Scan] then fails with [ErrTooLong] and the scan stops (the boolean). *)
Fixpoint scan_tokens (ps : list string) : list string * bool :=
  match ps with
  | [] => ([], false)
  | [p] =>
      if (String.length p =? 0)%nat then ([], false)
      else if (MaxScanTokenSize <=? N.of_nat (String.length p))%N then ([], true)
      else ([dropCR p], false)
  | p :: ps' =>
      if (MaxScanTokenSize <=? N.of_nat (String.length p))%N then ([], true)
      else let '(ts, stop) := scan_tokens ps' in (dropCR p :: ts, stop)
  end.

Definition ScanLines (data : string) : list string * bool :=
  scan_tokens (Split data (String nl EmptyString)).

(* ------------------------------------------------------------------ *)
(** ** Commits and parents *)

Abbreviation sha1 := string (only parsing).

(** The zero value [sha1{}]. *)
Definition sha1_zero : sha1 := EmptyString.

Record Signature := mkSignature { SigName : string; SigEmail : string }.

Record SubModule := mkSubModule { SubModulePath : string; SubModuleURL : string }.

(** The contents of a [.gitmodules] tree entry: its blob data, or the
    error [entry.Blob().Data()] returned. *)
Inductive blob_read :=
| BlobData (data : string)
| BlobErr (e : error).

(** A commit object as stored in the repository. *)
Record CommitObject := mkCommitObject {
  obj_author : Signature;
  obj_committer : Signature;
  obj_message : string;
  obj_parents : list sha1;
  obj_tree : gmap string blob_read
}.

Record Repository := mkRepository {
  RepoPath : string;
  objects : gmap sha1 CommitObject
}.

Record Commit := mkCommit {
  repo : Repository;
  tree : gmap string blob_read;
  ID : sha1;
  Author : Signature;
  Committer : Signature;
  CommitMessage : string;
  parents : list sha1;
  submoduleCache : option (gmap string SubModule)
}.

(** Modelled from the spec: [Repository.getCommit] (not in this file set).
    The commit is looked up by its ID in the object store; a missing ID is
    [NotFound], and a found commit carries the ID it was resolved by, with
    an empty submodule cache. *)
Definition getCommit (r : Repository) (id : sha1) : go (option Commit) :=
  match objects r !! id with
  | Some o =>
      Ret (Some (mkCommit r (obj_tree o) id (obj_author o) (obj_committer o)
                   (obj_message o) (obj_parents o) None)) None
  | None => Ret None (Some ErrNotExist)
  end.

(** [ParentID]: [c.parents[n]] panics for a negative [n]. *)
Definition ParentID (c : Commit) (n : Z) : go sha1 :=
  if Z.of_nat (List.length (parents c)) <=? n then Ret sha1_zero (Some ErrNotExist)
  else if n <? 0 then Panic
  else match nth_error (parents c) (Z.to_nat n) with
       | Some id => Ret id None
       | None => Panic
       end.

Definition Parent (c : Commit) (n : Z) : go (option Commit) :=
  match ParentID c n with
  | Panic => Panic
  | Ret _ (Some e) => Ret None (Some e)
  | Ret id None =>
      match getCommit (repo c) id with
      | Panic => Panic
      | Ret _ (Some e) => Ret None (Some e)
      | Ret parent None => Ret parent None
      end
  end.

Definition ParentCount (c : Commit) : Z := Z.of_nat (List.length (parents c)).

(* ------------------------------------------------------------------ *)
(** ** Submodules *)

(** Modelled from the spec: [Commit.GetTreeEntryByPath] (not in this file
    set).  A path without an entry in the commit's tree is [NotFound]. *)
Definition GetTreeEntryByPath (c : Commit) (p : string) : error + blob_read :=
  match tree c !! p with
  | Some b => inr b
  | None => inl ErrNotExist
  end.

(** Loop state of [GetSubModules]: [ismodule], [path] and the cache. *)
Record submodule_scan := mkSubmoduleScan {
  ismodule : bool;
  pending_path : string;
  cache : gmap string SubModule
}.

(** One scanned line of the [.gitmodules] loop (lines 229-242);
    [None] is the panic of [fields[1]] on a line without '='. *)
Definition submodule_line (st : submodule_scan) (t : string) : option submodule_scan :=
  if HasPrefix t "[submodule" then
    Some (mkSubmoduleScan true (pending_path st) (cache st))
  else if ismodule st then
    let fields := Split t "=" in
    let k := TrimSpace (hd EmptyString fields) in
    if String.eqb k "path" then
      match fields with
      | _ :: f1 :: _ => Some (mkSubmoduleScan true (TrimSpace f1) (cache st))
      | _ => None
      end
    else if String.eqb k "url" then
      match fields with
      | _ :: f1 :: _ =>
          Some (mkSubmoduleScan false (pending_path st)
                  (<[pending_path st := mkSubModule (pending_path st) (TrimSpace f1)]>
                     (cache st)))
      | _ => None
      end
    else Some st
  else Some st.

Fixpoint submodule_lines (st : submodule_scan) (ls : list string) : option submodule_scan :=
  match ls with
  | [] => Some st
  | t :: ls' =>
      match submodule_line st t with
      | None => None
      | Some st' => submodule_lines st' ls'
      end
  end.

(** [GetSubModules]: returns the module map and the commit with its cache
    filled.  The scan ends at the first line the scanner refuses; its
    error is not checked. *)
Definition GetSubModules (c : Commit) : go (option (gmap string SubModule)) * Commit :=
  match submoduleCache c with
  | Some m => (Ret (Some m) None, c)
  | None =>
      match GetTreeEntryByPath c ".gitmodules" with
      | inl e => (Ret None (Some e), c)
      | inr (BlobErr e) => (Ret None (Some e), c)
      | inr (BlobData data) =>
          match submodule_lines (mkSubmoduleScan false EmptyString ∅)
                  (fst (ScanLines data)) with
          | None => (Panic, c)
          | Some st =>
              (Ret (Some (cache st)) None,
               mkCommit (repo c) (tree c) (ID c) (Author c) (Committer c)
                 (CommitMessage c) (parents c) (Some (cache st)))
          end
      end
  end.

Definition GetSubModule (c : Commit) (entryname : string)
  : go (option SubModule) * Commit :=
  match GetSubModules c with
  | (Ret (Some modules) None, c') =>
      match modules !! entryname with
      | Some m => (Ret (Some m) None, c')
      | None => (Ret None None, c')
      end
  | (Ret _ err, c') => (Ret None err, c')
  | (Panic, c') => (Panic, c')
  end.

(* ------------------------------------------------------------------ *)
(** ** File status of a commit *)

Record CommitFileStatus := mkCommitFileStatus {
  Added : list string;
  Removed : list string;
  Modified : list string
}.

Definition NewCommitFileStatus : CommitFileStatus := mkCommitFileStatus [] [] [].

(** One scanned line of the parsing goroutine (lines 282-294).  The
    fields of [strings.Fields] are never empty, so [fields[0][0]] exists. *)
Definition classify_line (fs : CommitFileStatus) (line : string) : CommitFileStatus :=
  match Fields line with
  | f0 :: f1 :: _ =>
      match f0 with
      | String c _ =>
          if Ascii.eqb c "A"%char then
            mkCommitFileStatus (Added fs ++ [f1]) (Removed fs) (Modified fs)
          else if Ascii.eqb c "D"%char then
            mkCommitFileStatus (Added fs) (Removed fs ++ [f1]) (Modified fs)
          else if Ascii.eqb c "M"%char then
            mkCommitFileStatus (Added fs) (Removed fs) (Modified fs ++ [f1])
          else fs
      | EmptyString => fs
      end%list
  | _ => fs
  end.

(** Modelled from the spec: [concatenateError] (not in this file set)
    surfaces the process failure with the captured diagnostic text
    attached; with no diagnostic text the error is returned as is. *)
Definition concatenateError (e : error) (stderr : string) : error :=
  match stderr with
  | EmptyString => e
  | _ => ErrWithStderr e stderr
  end.

(** [GetCommitFileStatus].  [out] is what the git process writes into the
    pipe, [err] and [stderr] its result.  The parsing goroutine consumes
    the scanned lines and the caller waits on [done] before reading
    [fileStatus], so the status is the fold of [classify_line] over all
    scanned lines.  If the scanner stops on an over-long line the goroutine
    stops reading the pipe while the process may still be writing into
    it; the model does not follow that case and answers [None]. *)
Definition GetCommitFileStatus (out : string) (err : option error) (stderr : string)
  : option (go (option CommitFileStatus)) :=
  let '(lines, too_long) := ScanLines out in
  if too_long then None
  else match err with
       | Some e => Some (Ret None (Some (concatenateError e stderr)))
       | None => Some (Ret (Some (fold_left classify_line lines NewCommitFileStatus)) None)
       end.

(* ------------------------------------------------------------------ *)
(** ** Per-collaborator statistics *)

Record CommitsPerUser := mkCommitsPerUser {
  NumCommits : Z;
  Date : string;
  User : string
}.

Record CommitsInfo := mkCommitsInfo {
  Info : list CommitsPerUser;
  Total : Z
}.

(** [lines[:len(lines)-1]]; [strings.Split] never returns an empty slice. *)
Definition drop_last_line (lines : list string) : list string :=
  firstn (List.length lines - 1) lines.

(** The loop of lines 357-367; the error of [ParseInt] is discarded. *)
Fixpoint count_lines (user : string) (lines : list string)
  (commits : CommitsInfo) : go (option CommitsInfo) :=
  match lines with
  | [] => Ret (Some commits) None
  | line :: rest =>
      let info := SplitN2 line ":" in
      let numcommits := fst (ParseInt (TrimSpace (hd EmptyString info))) in
      match info with
      | _ :: info1 :: _ =>
          count_lines user rest
            (mkCommitsInfo (Info commits ++ [mkCommitsPerUser numcommits info1 user])%list
               (wrap64 (Total commits + numcommits)))
      | _ => Panic   (* info[1] out of range *)
      end
  end.

Definition commitsCountPerCollab (stdout : string) (err : option error) (user : string)
  : go (option CommitsInfo) :=
  match err with
  | Some e => Ret None (Some e)
  | None =>
      let user := if String.eqb user "" then "all" else user in
      let lines := drop_last_line (Split stdout (String nl EmptyString)) in
      match lines with
      | _ :: _ => count_lines user lines (mkCommitsInfo [] 0)
      | [] => Ret (Some (mkCommitsInfo [mkCommitsPerUser 0 "00-000-0000" user] 0)) None
      end
  end.

Record StatsUser := mkStatsUser {
  Insertions : Z;
  Deletions : Z;
  StatsAuthor : string;
  Files : Z
}.

Definition is_digit (c : ascii) : bool :=
  let n := nat_of_ascii c in ((48 <=? n) && (n <=? 57))%nat.

(** [regexp.MustCompile("[0-9]+").FindAllString(line, -1)]: the maximal
    runs of ASCII digits, left to right. *)
Fixpoint digit_runs (s : string) : list string :=
  match s with
  | EmptyString => []
  | String c s' =>
      if is_digit c then
        match s' with
        | String c' _ =>
            if is_digit c' then
              match digit_runs s' with
              | r :: rs => String c r :: rs
              | [] => [String c EmptyString]
              end
            else String c EmptyString :: digit_runs s'
        | EmptyString => [String c EmptyString]
        end
      else digit_runs s'
  end.

(** Contribution of one numstat line: [(ins, del)] and the new value of
    the shared [err] variable (only assigned when there are two runs). *)
Definition numstat_line (line : string) (err : option error) : Z * Z * option error :=
  match digit_runs line with
  | [n0; n1] =>
      let '(ins, e0) := ParseInt (TrimSpace n0) in
      let ins := match e0 with Some _ => 0 | None => ins end in
      let '(del, e1) := ParseInt (TrimSpace n1) in
      let del := match e1 with Some _ => 0 | None => del end in
      (ins, del, e1)
  | _ => (0, 0, err)
  end.

Fixpoint numstat_lines (lines : list string) (insertions deletions : Z)
  (err : option error) : Z * Z * option error :=
  match lines with
  | [] => (insertions, deletions, err)
  | line :: rest =>
      let '(ins, del, err') := numstat_line line err in
      numstat_lines rest (wrap64 (insertions + ins)) (wrap64 (deletions + del)) err'
  end.

Definition numStatCommitsPerUser (stdout : string) (err : option error) (user : string)
  : go (option StatsUser) :=
  match err with
  | Some e => Ret None (Some e)
  | None =>
      let lines := drop_last_line (Split stdout (String nl EmptyString)) in
      let '(insertions, deletions, err') := numstat_lines lines 0 0 None in
      Ret (Some (mkStatsUser insertions deletions user (Z.of_nat (List.length lines)))) err'
  end.

(* ------------------------------------------------------------------ *)
(** ** Commit message and commit counting *)

(** [Summary]: [strings.Split(c.CommitMessage, "\n")[0]]; [Split] never
    returns an empty slice, so index 0 exists. *)
Definition Summary (c : Commit) : string :=
  hd EmptyString (Split (CommitMessage c) NL).

(** [commitsCount] after the git call (lines 158-166).  [isFallback] is the
    result of [version.Compare(gitVersion, "1.8.0", "<")]. *)
Definition commitsCount (isFallback : bool) (stdout : string) (err : option error)
  : Z * option error :=
  match err with
  | Some e => (0, Some e)
  | None =>
      if isFallback then (Z.of_nat (count_byte nl stdout) + 1, None)
      else ParseInt (TrimSpace stdout)
  end.

(** Property-side decimal value of a string of digits (Horner's rule). *)
Fixpoint digits_value_from (acc : Z) (s : string) : Z :=
  match s with
  | EmptyString => acc
  | String c s' => digits_value_from (acc * 10 + (Z.of_nat (nat_of_ascii c) - 48)) s'
  end.

Definition digits_value (s : string) : Z := digits_value_from 0 s.

(* ------------------------------------------------------------------ *)
(** ** Inputs used to state and exercise the properties *)

Definition blank_line : string := String nl (String nl EmptyString).

Definition opts_page (page size : Z) : RepoSearchOptions :=
  mkRepoSearchOptions "k" 0 "" page size.

Definition three_blocks : string :=
  ("a:b" ++ NL ++ "x" ++ blank_line ++ "c:d" ++ NL ++ "y" ++ blank_line
   ++ "e:f" ++ NL ++ "z" ++ NL)%string.

(** The string contains no ':' byte. *)
Definition has_no_colon (s : string) : bool := (count_byte ":" s =? 0)%nat.

Definition QUOTE : string := String "034"%char EmptyString.

Definition sig0 : Signature := mkSignature "dev" "dev@example.com".

Definition repo0 : Repository := mkRepository "/repo" ∅.

(** A commit whose tree holds the given [.gitmodules] blob. *)
Definition commit_with_gitmodules (data : string) : Commit :=
  mkCommit repo0 {[ ".gitmodules" := BlobData data ]} "c0" sig0 sig0 "msg" [] None.

Definition gitmodules_x : string :=
  ("[submodule " ++ QUOTE ++ "x" ++ QUOTE ++ "]" ++ NL
   ++ "path = libs/x" ++ NL
   ++ "url = https://example.com/x.git" ++ NL)%string.

Definition gitmodules_no_section : string :=
  ("[core]" ++ NL ++ TAB ++ "bare = false" ++ NL)%string.

(** A one-parent commit in a repository that stores its parent. *)
Definition parent_obj : CommitObject := mkCommitObject sig0 sig0 "parent" [] ∅.

Definition repo1 : Repository := mkRepository "/repo" {[ "p1" := parent_obj ]}.

Definition child : Commit := mkCommit repo1 ∅ "c1" sig0 sig0 "child" ["p1"] None.

(** The name-status report of the spec's example. *)
Definition name_status_example : string :=
  ("A" ++ TAB ++ "foo.txt" ++ NL ++ "D" ++ TAB ++ "bar.txt" ++ NL
   ++ "M" ++ TAB ++ "baz.txt" ++ NL ++ "X" ++ NL)%string.

(** The numstat output of the spec's example, and the same lines with
    file names without digits. *)
Definition numstat_example : string :=
  ("10" ++ TAB ++ "2" ++ TAB ++ "file1" ++ NL
   ++ "3" ++ TAB ++ "1" ++ TAB ++ "file2" ++ NL)%string.

Definition numstat_example_letters : string :=
  ("10" ++ TAB ++ "2" ++ TAB ++ "fileA" ++ NL
   ++ "3" ++ TAB ++ "1" ++ TAB ++ "fileB" ++ NL)%string.

(** Property-side reading of the numstat rule: a line with exactly two
    digit runs contributes their int64 values (0 for a run [ParseInt]
    rejects), any other line contributes [(0, 0)]. *)
Definition parse_or_zero (run : string) : Z :=
  match ParseInt run with
  | (v, None) => v
  | (_, Some _) => 0
  end.

Definition line_contribution (line : string) : Z * Z :=
  match digit_runs line with
  | [n0; n1] => (parse_or_zero n0, parse_or_zero n1)
  | _ => (0, 0)
  end.

Definition sum_Z (l : list Z) : Z := fold_right Z.add 0 l.

(** Property-side reading of the name-status rule: the second fields of
    the lines with at least two fields whose first field starts with [c]. *)
Definition entries_with (c : ascii) (lines : list string) : list string :=
  flat_map (fun line =>
              match Fields line with
              | String c0 _ :: f1 :: _ => if Ascii.eqb c0 c then [f1] else []
              | _ => []
              end) lines.

(** The string consists of ASCII digits only. *)
Definition all_digits (s : string) : bool := forallb is_digit (list_ascii_of_string s).

(** A histogram line whose count does not fit in int64. *)
Definition out_of_range_count : string :=
  ("99999999999999999999:01-Jan-2020" ++ NL)%string.

(** Blocks of the code-search output whose header line is [id:path]. *)
Definition header_ok (h : string * string * string) : Prop :=
  let '(id, p, _) := h in
  count_byte ":" id = 0%nat /\ count_byte nl id = 0%nat
  /\ count_byte ":" p = 0%nat /\ count_byte nl p = 0%nat.

Definition block_of (h : string * string * string) : string :=
  let '(id, p, body) := h in id ++ ":" ++ p ++ NL ++ body.

Definition match_of (h : string * string * string) : Match :=
  let '(id, p, body) := h in
  mkMatch id (trim_left_byte " " p ++ NL) (id ++ ":" ++ p ++ NL ++ body).

(** A commit with its submodule cache replaced. *)
Definition with_cache (c : Commit) (m : option (gmap string SubModule)) : Commit :=
  mkCommit (repo c) (tree c) (ID c) (Author c) (Committer c) (CommitMessage c) (parents c) m.


(** A [.gitmodules] value as git writes it: non-empty printable ASCII
    without '=' that neither starts nor ends with a space. *)
Definition plain_value (v : string) : bool :=
  let bs := bytes_of v in
  negb (String.eqb v EmptyString)
  && forallb (fun b => (32 <=? b) && (b <=? 126) && negb (b =? 61)) bs
  && negb (List.hd 0 bs =? 32) && negb (List.last bs 0 =? 32).


(** Lines of [uniq -c] output as the awk stage shapes them: blanks, a
    decimal count, blanks, [':'] and the date. *)
Definition spaces_only (w : string) : bool :=
  forallb (fun c => Ascii.eqb c " "%char) (list_ascii_of_string w).

Definition uniq_line (r : string * string * string * string) : string :=
  let '(w1, n, w2, d) := r in w1 ++ n ++ w2 ++ ":" ++ d.

Definition uniq_line_ok (r : string * string * string * string) : Prop :=
  let '(w1, n, w2, d) := r in
  spaces_only w1 = true /\ spaces_only w2 = true /\ n <> EmptyString
  /\ all_digits n = true /\ digits_value n <= MaxInt64 /\ count_byte nl d = 0%nat.

Definition uniq_output (rows : list (string * string * string * string)) : string :=
  fold_right (fun r acc => uniq_line r ++ NL ++ acc) EmptyString rows.

Definition uniq_row (user : string) (r : string * string * string * string) : CommitsPerUser :=
  let '(_, n, _, d) := r in mkCommitsPerUser (digits_value n) d user.

Definition uniq_total_from (t : Z) (rows : list (string * string * string * string)) : Z :=
  fold_left (fun t r => let '(_, n, _, _) := r in wrap64 (t + digits_value n)) rows t.

(* ================================================================== *)
(** * Properties *)

(* ------------------------------------------------------------------ *)
(** ** Helper lemmas *)

Lemma wrap64_small (z : Z) : MinInt64 <= z <= MaxInt64 -> wrap64 z = z.
Proof.
  unfold wrap64, MinInt64, MaxInt64; intros H.
  rewrite Z.mod_small; lia.
Qed.

Lemma wrap64_add_wrap_l (x y : Z) : wrap64 (wrap64 x + y) = wrap64 (x + y).
Proof.
  unfold wrap64. f_equal.
  replace ((x + 2 ^ 63) mod 2 ^ 64 - 2 ^ 63 + y + 2 ^ 63)
    with ((x + 2 ^ 63) mod 2 ^ 64 + y) by ring.
  rewrite Z.add_mod_idemp_l by lia.
  f_equal. ring.
Qed.

Lemma prefix_empty (s : string) : String.prefix EmptyString s = true.
Proof. now destruct s. Qed.

(** Splitting on a one-byte separator yields one piece more than there
    are separator bytes. *)
Lemma length_split_byte (b : ascii) (s : string) :
  List.length (Split s (String b EmptyString)) = S (count_byte b s).
Proof.
  unfold Split; induction s as [|c s IH]; [reflexivity|].
  simpl. destruct (ascii_dec b c) as [->|Hne].
  - rewrite prefix_empty, Ascii.eqb_refl. simpl. now rewrite IH.
  - assert (Ascii.eqb c b = false) as ->
      by (apply Ascii.eqb_neq; congruence).
    destruct (split_from _ 0 s) eqn:E; simpl in *; lia.
Qed.

(** A string without the byte [b] is not split on it. *)
Lemma split_byte_absent (b : ascii) (s : string) :
  count_byte b s = 0%nat -> Split s (String b EmptyString) = [s].
Proof.
  unfold Split; induction s as [|c s IH]; [reflexivity|].
  simpl. destruct (ascii_dec b c) as [->|Hne].
  - rewrite Ascii.eqb_refl. simpl. lia.
  - assert (Ascii.eqb c b = false) as ->
      by (apply Ascii.eqb_neq; congruence).
    simpl. intros H. now rewrite IH.
Qed.

Lemma ReadString_error (s h : string) (e : error) :
  ReadString s = (h, Some e) -> e = ErrEOF.
Proof.
  revert h; induction s as [|c s IH]; simpl; intros h.
  - congruence.
  - destruct (Ascii.eqb c nl); [congruence|].
    destruct (ReadString s) as [h' e'] eqn:E. intros [= <- ->].
    eapply IH; eauto.
Qed.

Lemma parse_blocks_spec (bs : list string) (acc ms : list Match)
  (err e : option error) :
  parse_blocks bs acc err = Ret ms e ->
  (ms = [] /\ e = Some ErrEOF)
  \/ (e = err /\ map Content ms = (map Content acc ++ bs)%list).
Proof.
  revert acc; induction bs as [|b bs IH]; simpl; intros acc.
  - intros [= <- <-]. right. now rewrite app_nil_r.
  - destruct (ReadString b) as [h [e'|]] eqn:E.
    + intros [= <- <-]. left. split; [reflexivity|].
      now rewrite (ReadString_error _ _ _ E).
    + destruct (Split h ":") as [|i0 [|i1 is]]; try discriminate.
      intros H. destruct (IH _ H) as [Hl|[He Hc]]; [now left|right].
      split; [exact He|]. rewrite Hc, map_app. simpl.
      now rewrite <- app_assoc.
Qed.

Lemma firstn_min_length {A} (k : nat) (l : list A) :
  firstn (Nat.min k (List.length l)) l = firstn k l.
Proof.
  destruct (Nat.le_ge_cases k (List.length l)).
  - now rewrite Nat.min_l.
  - rewrite Nat.min_r by lia. rewrite firstn_all, firstn_all2 by lia.
    reflexivity.
Qed.

(** Under the documented bounds on the options, the slice of line 79 is
    the window of [PageSize] blocks from [(Page - 1) * PageSize]. *)
Lemma page_window_spec (l : list string) (opts : RepoSearchOptions) :
  1 <= Page opts -> 0 < PageSize opts -> Page opts * PageSize opts <= MaxInt64 ->
  (Page opts - 1) * PageSize opts <= Z.of_nat (List.length l) ->
  page_window l opts =
  Some (firstn (Z.to_nat (PageSize opts))
          (skipn (Z.to_nat ((Page opts - 1) * PageSize opts)) l)).
Proof.
  intros Hp Hs Hmax Hlo. unfold page_window.
  set (p := Page opts) in *. set (z := PageSize opts) in *.
  assert (0 <= (p - 1) * z) by nia.
  assert ((p - 1) * z <= p * z) by nia.
  rewrite (wrap64_small (p * z)) by (unfold MinInt64, MaxInt64 in *; lia).
  rewrite (wrap64_small (p - 1)) by (unfold MinInt64, MaxInt64 in *; lia).
  rewrite (wrap64_small ((p - 1) * z)) by (unfold MinInt64, MaxInt64 in *; lia).
  unfold go_slice.
  set (n := Z.of_nat (List.length l)) in *.
  set (lim := if p * z <? n then p * z else n).
  assert (Hlim : lim = Z.min (p * z) n)
    by (unfold lim; destruct (Z.ltb_spec (p * z) n); lia).
  replace ((0 <=? (p - 1) * z) && ((p - 1) * z <=? lim) && (lim <=? n))
    with true by (symmetry; rewrite Hlim; apply andb_true_intro; split;
                  [apply andb_true_intro; split|]; apply Z.leb_le; lia).
  f_equal.
  rewrite <- (firstn_min_length (Z.to_nat z)), length_skipn.
  f_equal. rewrite Hlim. unfold n. lia.
Qed.

(* ------------------------------------------------------------------ *)
(** ** Code search *)

(** C1 (as stated, refuted): with three blocks, page 1 of size 1 holds one
    match, not [max(0, 3 - 0) = 3]; and page 5 does not yield an empty
    slice: the slice expression panics. *)
Lemma getRangeOfMatches_claim_counterexample :
  List.length (Split three_blocks blank_line) = 3%nat
  /\ getRangeOfMatches three_blocks None (opts_page 1 1)
     = Ret [mkMatch "a" ("b" ++ NL) ("a:b" ++ NL ++ "x")] None
  /\ getRangeOfMatches three_blocks None (opts_page 5 1) = Panic.
Proof. split; [|split]; reflexivity. Qed.

(** C1 (amended): for [Page >= 1], [PageSize > 0] (with [Page * PageSize]
    within [int]) and a non-empty fetch output whose block count is at
    least [(Page - 1) * PageSize], a call that returns either stops with
    [io.EOF] on a block without a header line, or returns the process
    error together with one match per block of the window
    [blocks[(Page-1)*PageSize : min(Page*PageSize, totalBlocks)]], in
    order; their number is [min(PageSize, totalBlocks - (Page-1)*PageSize)],
    at most [PageSize]. *)
Theorem getRangeOfMatches_window (stdout : string) (err : option error)
  (opts : RepoSearchOptions) (ms : list Match) (e : option error) :
  1 <= Page opts -> 0 < PageSize opts -> Page opts * PageSize opts <= MaxInt64 ->
  stdout <> EmptyString ->
  (Page opts - 1) * PageSize opts <= Z.of_nat (List.length (Split stdout blank_line)) ->
  getRangeOfMatches stdout err opts = Ret ms e ->
  (ms = [] /\ e = Some ErrEOF)
  \/ (e = err
      /\ map Content ms
         = firstn (Z.to_nat (PageSize opts))
             (skipn (Z.to_nat ((Page opts - 1) * PageSize opts))
                (Split stdout blank_line))
      /\ Z.of_nat (List.length ms)
         = Z.min (PageSize opts)
             (Z.of_nat (List.length (Split stdout blank_line))
              - (Page opts - 1) * PageSize opts)
      /\ Z.of_nat (List.length ms) <= PageSize opts).
Proof.
  intros Hp Hs Hmax Hne Hlo. unfold getRangeOfMatches.
  destruct stdout as [|c s]; [congruence|]. simpl String.length.
  cbv zeta. fold blank_line.
  rewrite (page_window_spec _ _ Hp Hs Hmax Hlo).
  intros H. destruct (parse_blocks_spec _ _ _ _ _ H) as [Hl|[He Hc]];
    [now left|right].
  simpl in Hc. split; [exact He|]. split; [exact Hc|].
  assert (Hlen : Z.of_nat (List.length ms)
                 = Z.min (PageSize opts)
                     (Z.of_nat (List.length (Split (String c s) blank_line))
                      - (Page opts - 1) * PageSize opts)).
  { rewrite <- (length_map Content ms), Hc, length_firstn, length_skipn.
    assert (0 <= (Page opts - 1) * PageSize opts) by nia.
    rewrite Nat2Z.inj_min, Nat2Z.inj_sub, !Z2Nat.id by lia. lia. }
  split; [exact Hlen|]. rewrite Hlen. lia.
Qed.

Lemma getRangeOfMatches_window_witness :
  getRangeOfMatches three_blocks None (opts_page 2 2)
  = Ret [mkMatch "e" ("f" ++ NL) ("e:f" ++ NL ++ "z" ++ NL)] None
  /\ Z.of_nat (List.length [mkMatch "e" ("f" ++ NL) ("e:f" ++ NL ++ "z" ++ NL)]) = 1.
Proof.
  split; [reflexivity|].
  destruct (getRangeOfMatches_window three_blocks None (opts_page 2 2)
              [mkMatch "e" ("f" ++ NL) ("e:f" ++ NL ++ "z" ++ NL)] None)
    as [[_ H]|[_ [_ [H _]]]];
    [simpl; lia | simpl; lia | simpl; unfold MaxInt64; lia | discriminate
    | vm_compute; discriminate | reflexivity | discriminate | exact H].
Defined.

(** C5: an empty count output gives [(0, nil)] and an empty fetch output
    gives [(nil, nil)], whatever error the process reported; for a
    non-empty count output the count is the number of newline-separated
    pieces minus one, i.e. the number of newline bytes, returned with the
    process error. *)
Theorem code_search_empty_and_count (err : option error)
  (opts : RepoSearchOptions) (s : string) :
  getNumberOfCodeMatches EmptyString err = (0, None)
  /\ getRangeOfMatches EmptyString err opts = Ret [] None
  /\ (s <> EmptyString ->
      getNumberOfCodeMatches s err
      = (Z.of_nat (List.length (Split s NL)) - 1, err)
      /\ Z.of_nat (List.length (Split s NL)) - 1 = Z.of_nat (count_byte nl s)).
Proof.
  split; [reflexivity|]. split; [reflexivity|].
  intros Hs. destruct s as [|c s']; [congruence|].
  split; [reflexivity|].
  unfold NL. rewrite length_split_byte. lia.
Qed.

Lemma code_search_empty_and_count_witness :
  getNumberOfCodeMatches ("a" ++ NL ++ "b" ++ NL) None = (2, None).
Proof.
  destruct (code_search_empty_and_count None (opts_page 1 1) ("a" ++ NL ++ "b" ++ NL))
    as [_ [_ H]].
  destruct H as [H _]; [discriminate|]. exact H.
Defined.

(** C9: both phases test stdout for emptiness before the error, so a failed
    invocation with empty stdout gives the same result as zero matches. *)
Theorem code_search_empty_output_hides_error (e : error) (opts : RepoSearchOptions) :
  getNumberOfCodeMatches EmptyString (Some e) = (0, None)
  /\ getRangeOfMatches EmptyString (Some e) opts = Ret [] None
  /\ getNumberOfCodeMatches EmptyString (Some e) = getNumberOfCodeMatches EmptyString None
  /\ getRangeOfMatches EmptyString (Some e) opts = getRangeOfMatches EmptyString None opts.
Proof. repeat split. Qed.

(** C4 (as stated, refuted): an empty count output with a one-block fetch
    output gives [NumberMatches = 0] and one result. *)
Lemma search_count_claim_counterexample :
  ShearchMatchesThisRepo EmptyString None ("a:b" ++ NL) None (opts_page 1 1)
  = Ret (Some (mkMatchesResults 0 [mkMatch "a" ("b" ++ NL) ("a:b" ++ NL)])) None
  /\ 0 < Z.of_nat (List.length [mkMatch "a" ("b" ++ NL) ("a:b" ++ NL)]).
Proof. split; [reflexivity | simpl; lia]. Qed.

(** C4 (amended): a successful composed search takes [NumberMatches] from
    the count output alone (its number of newline bytes) and [Results]
    from the fetch phase alone; nothing relates the two, so
    [NumberMatches >= len(Results)] holds exactly when the count output
    has at least [len(Results)] newline bytes. *)
Theorem search_count_independent (count_out fetch_out : string)
  (count_err fetch_err : option error) (opts : RepoSearchOptions)
  (m : MatchesResults) :
  ShearchMatchesThisRepo count_out count_err fetch_out fetch_err opts
  = Ret (Some m) None ->
  NumberMatches m = Z.of_nat (count_byte nl count_out)
  /\ getRangeOfMatches fetch_out fetch_err opts = Ret (Results m) None
  /\ (Z.of_nat (List.length (Results m)) <= NumberMatches m
      <-> (List.length (Results m) <= count_byte nl count_out)%nat).
Proof.
  unfold ShearchMatchesThisRepo.
  assert (Hn : fst (getNumberOfCodeMatches count_out count_err)
               = Z.of_nat (count_byte nl count_out)).
  { unfold getNumberOfCodeMatches. destruct count_out as [|c s]; [reflexivity|].
    simpl fst. rewrite length_split_byte. lia. }
  destruct (getNumberOfCodeMatches count_out count_err) as [n [e|]];
    [discriminate|]. simpl in Hn.
  destruct (getRangeOfMatches fetch_out fetch_err opts) as [rs [e|]|];
    try discriminate.
  intros [= <-]. simpl. split; [exact Hn|]. split; [reflexivity|]. lia.
Qed.

Lemma search_count_independent_witness :
  NumberMatches (mkMatchesResults 2 [mkMatch "a" ("b" ++ NL) ("a:b" ++ NL)]) = 2.
Proof.
  destruct (search_count_independent ("x" ++ NL ++ "y" ++ NL) ("a:b" ++ NL)
              None None (opts_page 1 1)
              (mkMatchesResults 2 [mkMatch "a" ("b" ++ NL) ("a:b" ++ NL)]))
    as [H _]; [reflexivity|]. exact H.
Defined.

(** C10: when the first selected block has a newline-terminated header
    line without ':', [info[1]] is out of range: the call panics instead of
    returning an error. *)
Theorem getRangeOfMatches_header_without_colon (stdout : string)
  (err : option error) (opts : RepoSearchOptions) (b header : string)
  (rest : list string) :
  stdout <> EmptyString ->
  page_window (Split stdout blank_line) opts = Some (b :: rest) ->
  ReadString b = (header, None) ->
  has_no_colon header = true ->
  getRangeOfMatches stdout err opts = Panic.
Proof.
  intros Hne Hw Hr Hc. unfold getRangeOfMatches.
  destruct stdout as [|c s]; [congruence|]. simpl String.length. cbv zeta.
  fold blank_line. rewrite Hw. simpl. rewrite Hr.
  unfold has_no_colon in Hc. apply Nat.eqb_eq in Hc.
  now rewrite (split_byte_absent ":" header Hc).
Qed.

Lemma getRangeOfMatches_header_without_colon_witness :
  getRangeOfMatches ("abc" ++ NL ++ "xyz") None (opts_page 1 1) = Panic.
Proof.
  apply (getRangeOfMatches_header_without_colon _ None (opts_page 1 1)
           ("abc" ++ NL ++ "xyz") ("abc" ++ NL) []);
    [discriminate | reflexivity | reflexivity | reflexivity].
Defined.

(* ------------------------------------------------------------------ *)
(** ** File status *)

Lemma fold_classify_line (lines : list string) (fs : CommitFileStatus) :
  fold_left classify_line lines fs
  = mkCommitFileStatus (Added fs ++ entries_with "A" lines)%list
      (Removed fs ++ entries_with "D" lines)%list
      (Modified fs ++ entries_with "M" lines)%list.
Proof.
  revert fs; induction lines as [|line lines IH]; intros fs.
  - destruct fs; simpl; now rewrite !app_nil_r.
  - simpl. rewrite IH. unfold classify_line.
    destruct (Fields line) as [|[|c0 r] [|f1 more]]; simpl;
      try (destruct fs; reflexivity).
    destruct (Ascii.eqb c0 "A") eqn:EA;
      [apply Ascii.eqb_eq in EA; subst; simpl; now rewrite <- !app_assoc|].
    destruct (Ascii.eqb c0 "D") eqn:ED;
      [apply Ascii.eqb_eq in ED; subst; simpl; now rewrite <- !app_assoc|].
    destruct (Ascii.eqb c0 "M") eqn:EM;
      [apply Ascii.eqb_eq in EM; subst; simpl; now rewrite <- !app_assoc|].
    destruct fs; reflexivity.
Qed.

(** C6: for a report the scanner reads to its end and a successful git
    invocation, [added], [removed] and [modified] are the second fields of
    the lines with at least two whitespace-separated fields whose first
    field starts with 'A', 'D' and 'M' respectively, in order; lines with
    fewer fields or another leading character are ignored, and no error is
    returned.  On the spec's example the result is foo/bar/baz. *)
Theorem GetCommitFileStatus_classify (out stderr : string) :
  snd (ScanLines out) = false ->
  GetCommitFileStatus out None stderr
  = Some (Ret (Some (mkCommitFileStatus
                       (entries_with "A" (fst (ScanLines out)))
                       (entries_with "D" (fst (ScanLines out)))
                       (entries_with "M" (fst (ScanLines out))))) None)
  /\ GetCommitFileStatus name_status_example None stderr
     = Some (Ret (Some (mkCommitFileStatus ["foo.txt"] ["bar.txt"] ["baz.txt"])) None).
Proof.
  intros Hscan. split.
  - unfold GetCommitFileStatus.
    destruct (ScanLines out) as [lines too_long]. simpl in Hscan. subst.
    now rewrite fold_classify_line.
  - reflexivity.
Qed.

Lemma GetCommitFileStatus_classify_witness :
  GetCommitFileStatus name_status_example None ""
  = Some (Ret (Some (mkCommitFileStatus ["foo.txt"] ["bar.txt"] ["baz.txt"])) None).
Proof.
  destruct (GetCommitFileStatus_classify name_status_example "") as [H _];
    [reflexivity|].
  rewrite H. reflexivity.
Defined.

(* ------------------------------------------------------------------ *)
(** ** Parents *)

(** C8: for an index [0 <= n < ParentCount()], [Parent(n)] is the commit
    lookup of [parents[n]]; when the repository stores that commit, the
    result is that commit, with [parents[n]] as its ID and the stored
    message and parents.  For [n >= ParentCount()] it fails with NotFound. *)
Theorem Parent_spec (c : Commit) (n : Z) :
  (0 <= n < ParentCount c -> forall id,
   nth_error (parents c) (Z.to_nat n) = Some id ->
   Parent c n = getCommit (repo c) id
   /\ forall o, objects (repo c) !! id = Some o ->
        exists p, Parent c n = Ret (Some p) None /\ ID p = id
                  /\ CommitMessage p = obj_message o /\ parents p = obj_parents o)
  /\ (ParentCount c <= n -> Parent c n = Ret None (Some ErrNotExist)).
Proof.
  unfold Parent, ParentID, ParentCount. split.
  - intros Hn id Hid.
    destruct (Z.leb_spec (Z.of_nat (List.length (parents c))) n); [lia|].
    destruct (Z.ltb_spec n 0); [lia|].
    rewrite Hid.
    assert (Hg : match getCommit (repo c) id with
                 | Panic => Panic
                 | Ret _ (Some e) => Ret None (Some e)
                 | Ret parent None => Ret parent None
                 end = getCommit (repo c) id)
      by (unfold getCommit; now destruct (objects (repo c) !! id)).
    rewrite Hg. split; [reflexivity|].
    intros o Ho. unfold getCommit. rewrite Ho.
    eexists; split; [reflexivity|]. simpl. auto.
  - intros Hn. destruct (Z.leb_spec (Z.of_nat (List.length (parents c))) n);
      [reflexivity | lia].
Qed.

Lemma Parent_spec_witness :
  (exists p, Parent child 0 = Ret (Some p) None /\ ID p = "p1")
  /\ Parent child 1 = Ret None (Some ErrNotExist).
Proof.
  destruct (Parent_spec child 0) as [H0 _].
  destruct (Parent_spec child 1) as [_ H1].
  split.
  - destruct (H0 ltac:(unfold ParentCount; simpl; lia) "p1" eq_refl) as [_ Hp].
    destruct (Hp parent_obj eq_refl) as [p [Hp0 [Hid _]]].
    exists p. split; [exact Hp0 | exact Hid].
  - apply H1. unfold ParentCount. simpl. lia.
Defined.

(* ------------------------------------------------------------------ *)
(** ** Submodules *)

Lemma submodule_lines_no_section (ls : list string) (st : submodule_scan) :
  ismodule st = false ->
  Forall (fun t => HasPrefix t "[submodule" = false) ls ->
  submodule_lines st ls = Some st.
Proof.
  intros Hst Hls. induction Hls as [|t ls Ht _ IH]; [reflexivity|].
  simpl. unfold submodule_line. rewrite Ht, Hst. exact IH.
Qed.

(** C3 (as stated, refuted): a [.gitmodules] blob without a submodule
    section does not fail with NotFound: [GetSubModules] returns an empty
    map and no error, and [GetSubModule] returns [(nil, nil)]. *)
Lemma GetSubModules_claim_counterexample :
  fst (GetSubModules (commit_with_gitmodules gitmodules_no_section))
  = Ret (Some ∅) None
  /\ fst (GetSubModule (commit_with_gitmodules gitmodules_no_section) "libs/x")
     = Ret None None.
Proof. split; reflexivity. Qed.

(** C3 (amended): the spec's one-section blob yields
    [SubModule{libs/x, https://example.com/x.git}] for "libs/x"; a blob
    whose lines contain no [[submodule] marker yields an empty map and no
    error; a commit without a [.gitmodules] entry gives NotFound, and
    NotFound arises only then or when reading the entry's blob data itself
    fails with NotFound (never for a blob that is read); and a path missing
    from a successfully parsed map gives [(nil, nil)]. *)
Theorem GetSubModule_spec :
  fst (GetSubModule (commit_with_gitmodules gitmodules_x) "libs/x")
  = Ret (Some (mkSubModule "libs/x" "https://example.com/x.git")) None
  /\ (forall (c : Commit) (data : string),
        submoduleCache c = None ->
        tree c !! ".gitmodules" = Some (BlobData data) ->
        Forall (fun t => HasPrefix t "[submodule" = false) (fst (ScanLines data)) ->
        fst (GetSubModules c) = Ret (Some ∅) None)
  /\ (forall c : Commit,
        submoduleCache c = None -> tree c !! ".gitmodules" = None ->
        fst (GetSubModules c) = Ret None (Some ErrNotExist))
  /\ (forall (c : Commit) (p : string),
        fst (GetSubModule c p) = Ret None (Some ErrNotExist) ->
        submoduleCache c = None
        /\ (tree c !! ".gitmodules" = None
            \/ tree c !! ".gitmodules" = Some (BlobErr ErrNotExist)))
  /\ (forall (c : Commit) (p : string) (m : gmap string SubModule),
        fst (GetSubModules c) = Ret (Some m) None -> m !! p = None ->
        fst (GetSubModule c p) = Ret None None).
Proof.
  split; [reflexivity|]. split; [|split; [|split]].
  - intros c data Hc Ht Hls. unfold GetSubModules, GetTreeEntryByPath.
    rewrite Hc, Ht.
    rewrite (submodule_lines_no_section _ (mkSubmoduleScan false EmptyString ∅)
               eq_refl Hls). reflexivity.
  - intros c Hc Ht. unfold GetSubModules, GetTreeEntryByPath.
    now rewrite Hc, Ht.
  - intros c p. unfold GetSubModule, GetSubModules, GetTreeEntryByPath.
    destruct (submoduleCache c) as [m|];
      [destruct (m !! p); simpl; intros H; discriminate|].
    destruct (tree c !! ".gitmodules") as [[data|e]|] eqn:Ht.
    + destruct (submodule_lines _ _) as [st|]; simpl; [|discriminate].
      destruct (cache st !! p); simpl; discriminate.
    + simpl. intros H. inversion H; subst. split; [reflexivity | now right].
    + intros _. split; [reflexivity | now left].
  - intros c p m Hm Hp. unfold GetSubModule.
    destruct (GetSubModules c) as [r c']. simpl in Hm. subst r.
    now rewrite Hp.
Qed.

(* ------------------------------------------------------------------ *)
(** ** Numstat totals *)

Lemma digit_runs_digits (s : string) :
  Forall (fun r => r <> EmptyString /\ all_digits r = true) (digit_runs s).
Proof.
  induction s as [|c s IH]; simpl; [constructor|].
  destruct (is_digit c) eqn:Hc; [|exact IH].
  destruct s as [|c' s'].
  - constructor; [|constructor]. split; [discriminate|]. unfold all_digits. simpl. now rewrite Hc.
  - destruct (is_digit c') eqn:Hc'.
    + destruct (digit_runs (String c' s')) as [|r rs] eqn:E.
      * constructor; [|constructor]. split; [discriminate|]. unfold all_digits. simpl. now rewrite Hc.
      * inversion IH as [|? ? [Hr Hd] Hrs]; subst.
        constructor; [|exact Hrs]. split; [discriminate|].
        unfold all_digits in *. simpl. now rewrite Hc, Hd.
    + constructor; [|exact IH]. split; [discriminate|]. unfold all_digits. simpl. now rewrite Hc.
Qed.

Lemma digit_not_space (b : Z) : 48 <= b <= 57 -> IsSpace b = false.
Proof.
  intros Hb. unfold IsSpace.
  replace (b <=? 255) with true by (symmetry; apply Z.leb_le; lia).
  simpl.
  repeat rewrite (proj2 (Z.eqb_neq _ _)) by lia. reflexivity.
Qed.

Lemma runes_ascii (fuel : nat) (l : list Z) :
  (List.length l <= fuel)%nat -> Forall (fun b => 0 <= b < 128) l ->
  runes_fuel fuel l = map (fun b => (b, [b])) l.
Proof.
  revert l; induction fuel as [|fuel IH]; intros l Hlen Hl.
  - destruct l; [reflexivity | simpl in Hlen; lia].
  - destruct l as [|b l]; [reflexivity|].
    inversion Hl as [|? ? Hb Hl']; subst.
    simpl. replace (b <? 128) with true by (symmetry; apply Z.ltb_lt; lia).
    simpl. f_equal. apply IH; [simpl in Hlen; lia | exact Hl'].
Qed.

Lemma concat_singletons (l : list Z) : concat (map snd (map (fun b => (b, [b])) l)) = l.
Proof. induction l as [|b l IH]; simpl; [reflexivity | now rewrite IH]. Qed.

Lemma string_of_bytes_of (s : string) : string_of_bytes (bytes_of s) = s.
Proof.
  unfold string_of_bytes, bytes_of. rewrite map_map.
  erewrite map_ext; [rewrite map_id; apply string_of_list_ascii_of_string|].
  intros c. simpl. rewrite Nat2Z.id. apply ascii_nat_embedding.
Qed.

Lemma bytes_of_digits (s : string) :
  all_digits s = true -> Forall (fun b => 48 <= b <= 57) (bytes_of s).
Proof.
  unfold all_digits, bytes_of. intros H.
  pose proof (proj1 (forallb_forall is_digit _) H) as H0. clear H. rename H0 into H.
  apply List.Forall_forall. intros b Hb. apply in_map_iff in Hb.
  destruct Hb as [c [<- Hc]]. specialize (H c Hc).
  unfold is_digit in H. apply andb_prop in H. destruct H as [H1 H2].
  apply Nat.leb_le in H1. apply Nat.leb_le in H2. lia.
Qed.

(** [TrimSpace] leaves a non-empty run of ASCII digits unchanged. *)
Lemma TrimSpace_digits (s : string) :
  s <> EmptyString -> all_digits s = true -> TrimSpace s = s.
Proof.
  intros Hne Hd. pose proof (bytes_of_digits s Hd) as Hb.
  unfold TrimSpace, runes.
  rewrite runes_ascii
    by first [lia | eapply List.Forall_impl; [|exact Hb]; simpl; intros; lia].
  destruct (bytes_of s) as [|b l] eqn:E.
  { destruct s; [congruence | discriminate]. }
  inversion Hb as [|? ? Hb0 Hl]; subst. simpl.
  rewrite (digit_not_space b Hb0). fold (map (fun b => (b, [b])) l).
  change (b :: concat (map snd (map (fun b0 => (b0, [b0])) l))) with
    (concat (map snd (map (fun b0 => (b0, [b0])) (b :: l)))).
  rewrite concat_singletons.
  assert (Hlast : exists b' before, rev (b :: l) = b' :: before /\ 48 <= b' <= 57).
  { destruct (rev (b :: l)) as [|b' before] eqn:R.
    - apply (f_equal (@List.length Z)) in R. rewrite length_rev in R. simpl in R. lia.
    - exists b', before. split; [reflexivity|].
      assert (In b' (b :: l)) as Hin
        by (apply in_rev; rewrite R; now left).
      rewrite List.Forall_forall in Hb. now apply Hb.
  }
  destruct Hlast as [b' [before [R Hb']]].
  simpl List.length. unfold trim_right_fuel.
  unfold DecodeLastRune. rewrite R.
  replace (b' <? 128) with true by (symmetry; apply Z.ltb_lt; lia).
  rewrite (digit_not_space b' Hb').
  rewrite <- E. apply string_of_bytes_of.
Qed.

Lemma wrap64_idem (z : Z) : wrap64 (wrap64 z) = wrap64 z.
Proof.
  pose proof (wrap64_add_wrap_l z 0) as H. now rewrite !Z.add_0_r in H.
Qed.

Lemma numstat_line_contribution (line : string) (err : option error) :
  exists err', numstat_line line err
               = (fst (line_contribution line), snd (line_contribution line), err').
Proof.
  unfold numstat_line, line_contribution.
  pose proof (digit_runs_digits line) as Hd.
  destruct (digit_runs line) as [|n0 [|n1 [|n2 rest]]]; try (eexists; reflexivity).
  inversion Hd as [|? ? [Hn0 Hd0] Hd']; subst.
  inversion Hd' as [|? ? [Hn1 Hd1] _]; subst.
  rewrite (TrimSpace_digits n0 Hn0 Hd0), (TrimSpace_digits n1 Hn1 Hd1).
  unfold parse_or_zero.
  destruct (ParseInt n0) as [v0 e0], (ParseInt n1) as [v1 e1].
  exists e1. destruct e0, e1; reflexivity.
Qed.

Lemma numstat_lines_sum (lines : list string) (i d : Z) (err : option error) :
  wrap64 i = i -> wrap64 d = d ->
  exists err',
    numstat_lines lines i d err
    = (wrap64 (i + sum_Z (map (fun l => fst (line_contribution l)) lines)),
       wrap64 (d + sum_Z (map (fun l => snd (line_contribution l)) lines)), err').
Proof.
  revert i d err; induction lines as [|line lines IH]; intros i d err Hi Hd.
  - exists err. simpl. now rewrite !Z.add_0_r, Hi, Hd.
  - simpl. destruct (numstat_line_contribution line err) as [e E]. rewrite E.
    destruct (IH (wrap64 (i + fst (line_contribution line)))
                 (wrap64 (d + snd (line_contribution line))) e
                 (wrap64_idem _) (wrap64_idem _)) as [err' H].
    exists err'. rewrite H, !wrap64_add_wrap_l, !Z.add_assoc. reflexivity.
Qed.

(** C2 (as stated, refuted): the file names "file1" and "file2" are digit
    runs too, so each example line has three runs and contributes 0. *)
Lemma numStat_claim_counterexample :
  digit_runs ("10" ++ TAB ++ "2" ++ TAB ++ "file1") = ["10"; "2"; "1"]
  /\ numStatCommitsPerUser numstat_example None "u"
     = Ret (Some (mkStatsUser 0 0 "u" 2)) None.
Proof. split; reflexivity. Qed.

(** C2 (amended): on a successful run, [Insertions] and [Deletions] are the
    int64 sums over the lines (all but the final piece after the last
    newline) of their contributions: a line with exactly two digit runs
    contributes the two values (a run [ParseInt] rejects counts 0), any
    other line contributes nothing; [Files] is the number of those lines.
    For the spec's example lines the totals are therefore 0 and 0 with
    [Files = 2], and with digit-free file names they are 13 and 3. *)
Theorem numStatCommitsPerUser_totals (stdout user : string) :
  (exists err',
     numStatCommitsPerUser stdout None user
     = Ret (Some (mkStatsUser
                    (wrap64 (sum_Z (map (fun l => fst (line_contribution l))
                                      (drop_last_line (Split stdout NL)))))
                    (wrap64 (sum_Z (map (fun l => snd (line_contribution l))
                                      (drop_last_line (Split stdout NL)))))
                    user
                    (Z.of_nat (List.length (drop_last_line (Split stdout NL))))))
           err')
  /\ numStatCommitsPerUser numstat_example None user
     = Ret (Some (mkStatsUser 0 0 user 2)) None
  /\ numStatCommitsPerUser numstat_example_letters None user
     = Ret (Some (mkStatsUser 13 3 user 2)) None.
Proof.
  split; [|split; reflexivity].
  unfold numStatCommitsPerUser.
  destruct (numstat_lines_sum (drop_last_line (Split stdout NL)) 0 0 None
              eq_refl eq_refl) as [err' H].
  fold NL. rewrite H. exists err'. reflexivity.
Qed.

(* ------------------------------------------------------------------ *)
(** ** Commit/date histogram *)

(** C7 (code defect): the parse error of an out-of-range count is
    discarded, and [ParseInt] then yields [MaxInt64], not 0; this row and
    [Total] carry 9223372036854775807.  The regular example gives 5. *)
Theorem commitsCountPerCollab_out_of_range :
  ParseInt "99999999999999999999" = (MaxInt64, Some (ErrRange "99999999999999999999"))
  /\ commitsCountPerCollab out_of_range_count None ""
     = Ret (Some (mkCommitsInfo [mkCommitsPerUser MaxInt64 "01-Jan-2020" "all"]
                    MaxInt64)) None
  /\ commitsCountPerCollab ("3:01-Jan-2020" ++ NL ++ "2:02-Jan-2020" ++ NL) None ""
     = Ret (Some (mkCommitsInfo [mkCommitsPerUser 3 "01-Jan-2020" "all";
                                 mkCommitsPerUser 2 "02-Jan-2020" "all"] 5)) None
  /\ commitsCountPerCollab EmptyString None ""
     = Ret (Some (mkCommitsInfo [mkCommitsPerUser 0 "00-000-0000" "all"] 0)) None.
Proof. repeat split; vm_compute; reflexivity. Qed.

Lemma sum_Z_app (l1 l2 : list Z) : sum_Z (l1 ++ l2)%list = sum_Z l1 + sum_Z l2.
Proof. induction l1 as [|x l1 IH]; simpl; [reflexivity | rewrite IH; ring]. Qed.

Lemma count_lines_total (user : string) (lines : list string)
  (commits ci : CommitsInfo) :
  Total commits = wrap64 (sum_Z (map NumCommits (Info commits))) ->
  count_lines user lines commits = Ret (Some ci) None ->
  Total ci = wrap64 (sum_Z (map NumCommits (Info ci))).
Proof.
  revert commits; induction lines as [|line lines IH]; intros commits Ht; simpl.
  - now intros [= <-].
  - destruct (SplitN2 line ":") as [|i0 [|i1 is]]; try discriminate.
    apply IH. simpl. rewrite Ht, wrap64_add_wrap_l, map_app, sum_Z_app.
    simpl. now rewrite Z.add_0_r.
Qed.

(** Every successful histogram has [Total] equal to the int64 sum of its
    rows' [NumCommits]. *)
Lemma commitsCountPerCollab_total (stdout user : string) (ci : CommitsInfo) :
  commitsCountPerCollab stdout None user = Ret (Some ci) None ->
  Total ci = wrap64 (sum_Z (map NumCommits (Info ci))).
Proof.
  unfold commitsCountPerCollab.
  destruct (drop_last_line (Split stdout (String nl EmptyString))) as [|l ls].
  - intros [= <-]. reflexivity.
  - apply count_lines_total. reflexivity.
Qed.

(* ------------------------------------------------------------------ *)
(** ** Further helper lemmas on strings *)

(** [append] is declared [simpl never]; its two equations. *)
Lemma str_app_nil_l (a : string) : EmptyString ++ a = a.
Proof. reflexivity. Qed.

Lemma str_app_cons (x : ascii) (a b : string) : String x a ++ b = String x (a ++ b).
Proof. reflexivity. Qed.

Lemma str_app_assoc (a b c : string) : (a ++ b) ++ c = a ++ (b ++ c).
Proof.
  induction a as [|x a IH]; [reflexivity|]. rewrite !str_app_cons. now rewrite IH.
Qed.

Lemma str_app_nil_r (a : string) : a ++ EmptyString = a.
Proof. induction a as [|x a IH]; [reflexivity|]. rewrite str_app_cons. now rewrite IH. Qed.

Lemma count_byte_app (b : ascii) (s t : string) :
  count_byte b (s ++ t) = (count_byte b s + count_byte b t)%nat.
Proof.
  induction s as [|c s IH]; [reflexivity|]. rewrite str_app_cons. simpl. rewrite IH; lia.
Qed.

Lemma length_str_app (s t : string) :
  String.length (s ++ t) = (String.length s + String.length t)%nat.
Proof.
  induction s as [|c s IH]; [reflexivity|]. rewrite str_app_cons. simpl. now rewrite IH.
Qed.

(** Splitting on a one-byte separator: a first piece without the byte is
    cut off at the first separator. *)
Lemma split_byte_app (b : ascii) (a t : string) :
  count_byte b a = 0%nat ->
  Split (a ++ String b t) (String b EmptyString) = a :: Split t (String b EmptyString).
Proof.
  unfold Split; induction a as [|c a IH]; intros H.
  - rewrite str_app_nil_l. simpl. destruct (ascii_dec b b) as [_|]; [|congruence]. rewrite prefix_empty. reflexivity.
  - rewrite str_app_cons. simpl. simpl in H.
    destruct (Ascii.eqb c b) eqn:Ecb; [simpl in H; lia|].
    destruct (ascii_dec b c) as [->|_]; [now rewrite Ascii.eqb_refl in Ecb|].
    simpl in H. now rewrite IH.
Qed.

(** A string either lacks the byte [b], or it is a piece without [b]
    followed by [b]. *)
Lemma first_byte_decomp (b : ascii) (s : string) :
  count_byte b s = 0%nat
  \/ exists a t, s = a ++ String b t /\ count_byte b a = 0%nat.
Proof.
  induction s as [|c s IH]; simpl; [now left|].
  destruct (Ascii.eqb c b) eqn:E.
  - right. exists EmptyString, s. apply Ascii.eqb_eq in E. subst. split; reflexivity.
  - destruct IH as [H|[a [t [-> H]]]]; [left; simpl; lia|].
    right. exists (String c a), t. simpl. rewrite E. split; [reflexivity | simpl; lia].
Qed.

(** The first piece of a split on one byte: it lacks the byte, and it is
    either the whole string or followed by the byte. *)
Lemma split_byte_first (b : ascii) (s p0 : string) (ps : list string) :
  Split s (String b EmptyString) = p0 :: ps ->
  count_byte b p0 = 0%nat
  /\ ((ps = [] /\ s = p0)
      \/ exists t, s = p0 ++ String b t /\ ps = Split t (String b EmptyString)).
Proof.
  destruct (first_byte_decomp b s) as [H|[a [t [-> H]]]].
  - rewrite (split_byte_absent b s H). intros [= <- <-]. auto.
  - rewrite (split_byte_app b a t H). intros [= <- <-]. split; [exact H|].
    right. exists t. auto.
Qed.

Lemma ReadString_newline (a t : string) :
  count_byte nl a = 0%nat -> ReadString (a ++ String nl t) = (a ++ NL, None).
Proof.
  induction a as [|c a IH]; intros H.
  - reflexivity.
  - rewrite str_app_cons. simpl. simpl in H.
    destruct (Ascii.eqb c nl); [simpl in H; lia|]. now rewrite IH.
Qed.

Lemma ReadString_no_newline (s : string) :
  count_byte nl s = 0%nat -> ReadString s = (s, Some ErrEOF).
Proof.
  induction s as [|c s IH]; simpl; intros H; [reflexivity|].
  destruct (Ascii.eqb c nl); [simpl in H; lia|]. now rewrite IH.
Qed.

(** A successful [ReadString] returns a prefix of the data. *)
Lemma ReadString_prefix (s h : string) :
  ReadString s = (h, None) -> exists r, s = h ++ r.
Proof.
  destruct (first_byte_decomp nl s) as [H|[a [t [-> H]]]].
  - rewrite (ReadString_no_newline s H). discriminate.
  - rewrite (ReadString_newline a t H). intros [= <-].
    exists t. unfold NL. now rewrite str_app_assoc.
Qed.

(* ------------------------------------------------------------------ *)
(** ** Commit message, parents and commit creation *)

(** X1: [Summary] is the commit message up to (not including) its first
    newline, or the whole message when it has none. *)
Theorem Summary_first_line (c : Commit) :
  count_byte nl (Summary c) = 0%nat
  /\ (CommitMessage c = Summary c
      \/ exists rest, CommitMessage c = Summary c ++ String nl rest).
Proof.
  unfold Summary, NL.
  destruct (Split (CommitMessage c) (String nl EmptyString)) as [|p0 ps] eqn:E.
  - pose proof (length_split_byte nl (CommitMessage c)) as L.
    unfold NL in L. rewrite E in L. discriminate.
  - simpl. destruct (split_byte_first _ _ _ _ E) as [H [[_ ->]|[t [-> _]]]].
    + auto.
    + split; [exact H|]. right. eauto.
Qed.

(* ------------------------------------------------------------------ *)
(** ** Code search: header fields, failed headers, composed errors *)

Lemma list_ascii_of_string_app (a b : string) :
  list_ascii_of_string (a ++ b) = (list_ascii_of_string a ++ list_ascii_of_string b)%list.
Proof.
  induction a as [|x a IH]; [reflexivity|]. rewrite str_app_cons. simpl. now rewrite IH.
Qed.

(** [strings.Trim(s, " ")] from the right keeps a string whose last byte
    is not the cut byte. *)
Lemma trim_right_byte_last (b c : ascii) (s : string) (l : list ascii) :
  rev (list_ascii_of_string s) = c :: l -> Ascii.eqb c b = false ->
  trim_right_byte b s = s.
Proof.
  intros E Hc. unfold trim_right_byte. rewrite E. simpl. rewrite Hc.
  change (String c (string_of_list_ascii l)) with (string_of_list_ascii (c :: l)).
  rewrite list_ascii_of_string_of_list_ascii, <- E, rev_involutive.
  apply string_of_list_ascii_of_string.
Qed.

Lemma trim_left_byte_app (b c : ascii) (p q : string) :
  Ascii.eqb c b = false ->
  trim_left_byte b (p ++ String c q) = trim_left_byte b p ++ String c q.
Proof.
  intros Hc. induction p as [|x p IH].
  - simpl. now rewrite Hc.
  - rewrite str_app_cons. simpl. destruct (Ascii.eqb x b); [exact IH | reflexivity].
Qed.

(** The header of a block [id:path] followed by a newline: the match gets
    [id] as [CommitID] and, as [Path], the rest of the header line with its
    leading spaces trimmed and its newline kept. *)
Lemma parse_block_header (id p body : string) (acc : list Match) (err : option error) :
  count_byte ":" id = 0%nat -> count_byte nl id = 0%nat ->
  count_byte ":" p = 0%nat -> count_byte nl p = 0%nat ->
  forall rest,
  parse_blocks ((id ++ ":" ++ p ++ NL ++ body) :: rest) acc err
  = parse_blocks rest
      (acc ++ [mkMatch id (trim_left_byte " " p ++ NL) (id ++ ":" ++ p ++ NL ++ body)])%list
      err.
Proof.
  intros Hi1 Hi2 Hp1 Hp2 rest. simpl.
  replace (id ++ ":" ++ p ++ NL ++ body) with ((id ++ ":" ++ p) ++ String nl body)
    by (rewrite !str_app_assoc; reflexivity).
  rewrite ReadString_newline
    by (rewrite !count_byte_app; simpl; rewrite Hi2, Hp2; reflexivity).
  replace ((id ++ ":" ++ p) ++ NL) with (id ++ String ":" (p ++ NL))
    by (rewrite !str_app_assoc; reflexivity).
  rewrite split_byte_app by exact Hi1.
  rewrite split_byte_absent
    by (rewrite count_byte_app, Hp1; reflexivity).
  unfold Trim, NL. rewrite trim_left_byte_app by reflexivity.
  erewrite trim_right_byte_last;
    [ | rewrite list_ascii_of_string_app, rev_app_distr; reflexivity | reflexivity].
  rewrite str_app_cons, str_app_assoc. reflexivity.
Qed.

(** X4: over a window of blocks whose header line is [id:path], with
    neither [id] nor [path] holding ':' or a newline, the loop
    of [getRangeOfMatches] yields one match per block, in order: the text
    before the colon as [CommitID], the rest of the header line with its
    leading spaces removed and its newline kept as [Path], the whole block
    as [Content]; the error returned is the git process's. *)
Theorem parse_blocks_headers (hs : list (string * string * string)) (err : option error) :
  Forall header_ok hs ->
  parse_blocks (map block_of hs) [] err = Ret (map match_of hs) err.
Proof.
  intros H. change (map match_of hs) with ([] ++ map match_of hs)%list.
  generalize (@nil Match) as acc.
  induction H as [|[[id p] body] hs [H1 [H2 [H3 H4]]] _ IH]; intros acc.
  - simpl. now rewrite app_nil_r.
  - simpl map. unfold block_of at 1.
    rewrite (parse_block_header id p body acc err H1 H2 H3 H4).
    rewrite IH, <- app_assoc. reflexivity.
Qed.

Lemma parse_blocks_headers_witness :
  Forall header_ok [("abc", "main.go", "1-x"); ("def", " lib.go", "2-y")]
  /\ parse_blocks (map block_of [("abc", "main.go", "1-x"); ("def", " lib.go", "2-y")]) [] None
     = Ret [mkMatch "abc" ("main.go" ++ NL) ("abc:main.go" ++ NL ++ "1-x");
            mkMatch "def" ("lib.go" ++ NL) ("def: lib.go" ++ NL ++ "2-y")] None.
Proof.
  assert (Hf : Forall header_ok [("abc", "main.go", "1-x"); ("def", " lib.go", "2-y")])
    by (repeat (apply List.Forall_cons || apply List.Forall_nil);
        unfold header_ok; repeat split).
  split; [exact Hf|].
  rewrite (parse_blocks_headers _ None Hf). vm_compute. reflexivity.
Defined.

Lemma parse_blocks_no_newline (bs : list string) (acc : list Match) (err : option error) :
  Exists (fun b => count_byte nl b = 0%nat) bs ->
  parse_blocks bs acc err = Ret [] (Some ErrEOF) \/ parse_blocks bs acc err = Panic.
Proof.
  intros Hex. revert acc.
  induction Hex as [b bs Hb|b bs _ IH]; intros acc; simpl.
  - rewrite (ReadString_no_newline b Hb). now left.
  - destruct (ReadString b) as [h [e|]] eqn:E.
    + left. now rewrite (ReadString_error _ _ _ E).
    + destruct (Split h ":") as [|i0 [|i1 is]]; [now right | now right | apply IH].
Qed.

(** X5: the page is all or nothing: if a block of the window has no
    newline, its header read fails and [getRangeOfMatches] returns no
    matches at all (with [io.EOF]), unless an earlier block already made
    it panic. *)
Theorem getRangeOfMatches_no_partial_page (stdout : string) (err : option error)
  (opts : RepoSearchOptions) (w : list string) :
  stdout <> EmptyString ->
  page_window (Split stdout blank_line) opts = Some w ->
  Exists (fun b => count_byte nl b = 0%nat) w ->
  getRangeOfMatches stdout err opts = Ret [] (Some ErrEOF)
  \/ getRangeOfMatches stdout err opts = Panic.
Proof.
  intros Hs Hw Hex. unfold getRangeOfMatches.
  destruct stdout as [|c s]; [congruence|]. simpl (String.length _ <=? 0)%nat.
  cbv iota. fold blank_line. rewrite Hw.
  now apply parse_blocks_no_newline.
Qed.

Lemma getRangeOfMatches_no_partial_page_witness :
  getRangeOfMatches ("a:b" ++ NL ++ "x" ++ blank_line ++ "tail") None (opts_page 1 2)
  = Ret [] (Some ErrEOF)
  \/ getRangeOfMatches ("a:b" ++ NL ++ "x" ++ blank_line ++ "tail") None (opts_page 1 2)
     = Panic.
Proof.
  apply (getRangeOfMatches_no_partial_page _ None (opts_page 1 2)
           [("a:b" ++ NL ++ "x"); "tail"]).
  - discriminate.
  - vm_compute. reflexivity.
  - apply Exists_cons_tl, Exists_cons_hd. reflexivity.
Defined.

(** X6: the composed search never returns results together with an
    error, and an error of the count phase (on non-empty count output)
    is returned as is, whatever the fetch phase printed. *)
Theorem ShearchMatchesThisRepo_errors (count_out fetch_out : string)
  (count_err fetch_err : option error) (opts : RepoSearchOptions) :
  (forall r e,
     ShearchMatchesThisRepo count_out count_err fetch_out fetch_err opts = Ret r e ->
     (r = None /\ e <> None) \/ (e = None /\ r <> None))
  /\ (forall e0, count_out <> EmptyString -> count_err = Some e0 ->
      ShearchMatchesThisRepo count_out count_err fetch_out fetch_err opts
      = Ret None (Some e0)).
Proof.
  split.
  - intros r e. unfold ShearchMatchesThisRepo.
    destruct (getNumberOfCodeMatches count_out count_err) as [n [ce|]].
    + intros [= <- <-]. left. split; [reflexivity | discriminate].
    + destruct (getRangeOfMatches fetch_out fetch_err opts) as [rs [fe|]|];
        intros H; inversion H; subst.
      * left. split; [reflexivity | discriminate].
      * right. split; [reflexivity | discriminate].
  - intros e0 Hc He. unfold ShearchMatchesThisRepo, getNumberOfCodeMatches.
    destruct count_out as [|c s]; [congruence|]. simpl. now rewrite He.
Qed.

(* ------------------------------------------------------------------ *)
(** ** File status: at most one entry per line *)

Lemma entries_with_bound (lines : list string) :
  (List.length (entries_with "A" lines) + List.length (entries_with "D" lines)
   + List.length (entries_with "M" lines) <= List.length lines)%nat.
Proof.
  induction lines as [|line lines IH]; [simpl; lia|].
  unfold entries_with in *. simpl flat_map. rewrite !length_app.
  destruct (Fields line) as [|[|c0 r] [|f1 more]]; simpl; try lia.
  destruct (Ascii.eqb c0 "A") eqn:EA, (Ascii.eqb c0 "D") eqn:ED,
           (Ascii.eqb c0 "M") eqn:EM; simpl;
    repeat match goal with
           | H : Ascii.eqb _ _ = true |- _ => apply Ascii.eqb_eq in H; subst
           end;
    try discriminate; lia.
Qed.

(** X7: a successful [GetCommitFileStatus] records at most one path per
    scanned line; and when git fails it returns no status at all, even for
    the lines already parsed, only the git error passed through
    [concatenateError] with the captured stderr. *)
Theorem GetCommitFileStatus_entries (out stderr : string) (err : option error)
  (fs : CommitFileStatus) :
  (GetCommitFileStatus out None stderr = Some (Ret (Some fs) None) ->
   (List.length (Added fs) + List.length (Removed fs) + List.length (Modified fs)
    <= List.length (fst (ScanLines out)))%nat)
  /\ (forall e r, err = Some e ->
      GetCommitFileStatus out err stderr = Some r ->
      r = Ret None (Some (concatenateError e stderr))).
Proof.
  split.
  - unfold GetCommitFileStatus. destruct (ScanLines out) as [lines []]; [discriminate|].
    intros [= <-]. rewrite fold_classify_line. simpl. apply entries_with_bound.
  - intros e r -> . unfold GetCommitFileStatus.
    destruct (ScanLines out) as [lines []]; [discriminate|]. now intros [= <-].
Qed.

(* ------------------------------------------------------------------ *)
(** ** Commit/date histogram: rows and malformed lines *)

Lemma index_absent (c : ascii) (s : string) :
  count_byte c s = 0%nat -> String.index 0 (String c EmptyString) s = None.
Proof.
  induction s as [|x s IH]; simpl; intros H; [reflexivity|].
  destruct (ascii_dec c x) as [->|Hne].
  - rewrite Ascii.eqb_refl in H. simpl in H. lia.
  - rewrite IH; [reflexivity|]. destruct (Ascii.eqb x c); simpl in H; lia.
Qed.

Lemma SplitN2_absent (c : ascii) (s : string) :
  count_byte c s = 0%nat -> SplitN2 s (String c EmptyString) = [s].
Proof. intros H. unfold SplitN2. now rewrite index_absent. Qed.

Lemma SplitN2_shape (s sep : string) :
  SplitN2 s sep = [s] \/ exists a b, SplitN2 s sep = [a; b].
Proof. unfold SplitN2. destruct (String.index 0 sep s); [right; eauto | now left]. Qed.

Lemma count_lines_rows (user : string) (lines : list string) (commits ci : CommitsInfo) :
  count_lines user lines commits = Ret (Some ci) None ->
  Forall (fun r => User r = user) (Info commits) ->
  List.length (Info ci) = (List.length (Info commits) + List.length lines)%nat
  /\ Forall (fun r => User r = user) (Info ci).
Proof.
  revert commits; induction lines as [|line lines IH]; intros commits; simpl.
  - intros [= <-] Hu. split; [lia | exact Hu].
  - destruct (SplitN2 line ":") as [|i0 [|i1 is]]; try discriminate.
    intros H Hu. destruct (IH _ H) as [Hl Hu'].
    + simpl. apply List.Forall_app. split; [exact Hu|].
      constructor; [reflexivity | constructor].
    + simpl in Hl. rewrite length_app in Hl. simpl in Hl. split; [lia | exact Hu'].
Qed.

Lemma length_drop_last_line_split (stdout : string) :
  List.length (drop_last_line (Split stdout NL)) = count_byte nl stdout.
Proof.
  unfold drop_last_line. rewrite length_firstn.
  unfold NL. rewrite length_split_byte. lia.
Qed.

(** X8: a successful histogram has one row per output line (one
    placeholder row when there is none), every row labelled with the
    requested user or "all" for the empty user, and [Total] the int64 sum
    of the rows' counts. *)
Theorem commitsCountPerCollab_rows (stdout user : string) (ci : CommitsInfo) :
  commitsCountPerCollab stdout None user = Ret (Some ci) None ->
  List.length (Info ci) = Nat.max 1 (count_byte nl stdout)
  /\ Forall (fun r => User r = if String.eqb user "" then "all" else user) (Info ci)
  /\ Total ci = wrap64 (sum_Z (map NumCommits (Info ci))).
Proof.
  intros H. split; [|split]; [| |exact (commitsCountPerCollab_total _ _ _ H)].
  1: rewrite <- length_drop_last_line_split.
  all: unfold commitsCountPerCollab in H;
    fold NL in H; destruct (drop_last_line (Split stdout NL)) as [|l ls] eqn:E.
  - injection H as <-. reflexivity.
  - destruct (count_lines_rows _ _ _ _ H (List.Forall_nil _)) as [Hl _].
    rewrite Hl. simpl. lia.
  - injection H as <-. constructor; [reflexivity | constructor].
  - exact (proj2 (count_lines_rows _ _ _ _ H (List.Forall_nil _))).
Qed.

Lemma commitsCountPerCollab_rows_witness :
  commitsCountPerCollab ("3:01-Jan-2020" ++ NL ++ "2:02-Jan-2020" ++ NL) None ""
  = Ret (Some (mkCommitsInfo [mkCommitsPerUser 3 "01-Jan-2020" "all";
                              mkCommitsPerUser 2 "02-Jan-2020" "all"] 5)) None
  /\ List.length [mkCommitsPerUser 3 "01-Jan-2020" "all";
                  mkCommitsPerUser 2 "02-Jan-2020" "all"]
     = Nat.max 1 (count_byte nl ("3:01-Jan-2020" ++ NL ++ "2:02-Jan-2020" ++ NL)).
Proof.
  assert (H : commitsCountPerCollab ("3:01-Jan-2020" ++ NL ++ "2:02-Jan-2020" ++ NL) None ""
              = Ret (Some (mkCommitsInfo [mkCommitsPerUser 3 "01-Jan-2020" "all";
                                          mkCommitsPerUser 2 "02-Jan-2020" "all"] 5)) None)
    by (vm_compute; reflexivity).
  split; [exact H|].
  exact (proj1 (commitsCountPerCollab_rows _ _ _ H)).
Defined.

(** X9: a histogram line without ':' makes [commitsCountPerCollab] panic
    on [info[1]], whatever the other lines hold. *)
Theorem commitsCountPerCollab_line_without_colon (stdout user : string) :
  Exists (fun l => count_byte ":" l = 0%nat) (drop_last_line (Split stdout NL)) ->
  commitsCountPerCollab stdout None user = Panic.
Proof.
  intros Hex. unfold commitsCountPerCollab. fold NL.
  destruct (drop_last_line (Split stdout NL)) as [|l0 ls0];
    [inversion Hex|].
  generalize (mkCommitsInfo [] 0).
  generalize (if String.eqb user "" then "all" else user). intros u.
  revert Hex. generalize (l0 :: ls0) as lines. intros lines Hex.
  induction Hex as [l ls Hl|l ls _ IH]; intros commits; simpl.
  - now rewrite (SplitN2_absent ":" l Hl).
  - destruct (SplitN2_shape l ":") as [->|[a [b ->]]]; [reflexivity | apply IH].
Qed.

Lemma commitsCountPerCollab_line_without_colon_witness :
  Exists (fun l => count_byte ":" l = 0%nat)
    (drop_last_line (Split ("3:01-Jan-2020" ++ NL ++ "garbage" ++ NL) NL))
  /\ commitsCountPerCollab ("3:01-Jan-2020" ++ NL ++ "garbage" ++ NL) None "u" = Panic.
Proof.
  assert (Hex : Exists (fun l => count_byte ":" l = 0%nat)
                  (drop_last_line (Split ("3:01-Jan-2020" ++ NL ++ "garbage" ++ NL) NL)))
    by (vm_compute; apply Exists_cons_tl, Exists_cons_hd; reflexivity).
  split; [exact Hex|].
  exact (commitsCountPerCollab_line_without_colon _ "u" Hex).
Defined.

(* ------------------------------------------------------------------ *)
(** ** [ParseInt] on decimal digit strings *)

Lemma all_digits_cons (c : ascii) (s : string) :
  all_digits (String c s) = is_digit c && all_digits s.
Proof. reflexivity. Qed.

Lemma is_digit_value (c : ascii) :
  is_digit c = true -> 0 <= Z.of_nat (nat_of_ascii c) - 48 <= 9.
Proof.
  unfold is_digit. intros H. apply andb_prop in H. destruct H as [H1 H2].
  apply Nat.leb_le in H1. apply Nat.leb_le in H2. lia.
Qed.

Lemma digits_value_from_bound (s : string) (acc : Z) :
  all_digits s = true -> 0 <= acc ->
  acc * 10 ^ Z.of_nat (String.length s) <= digits_value_from acc s
  < (acc + 1) * 10 ^ Z.of_nat (String.length s).
Proof.
  revert acc; induction s as [|c s IH]; intros acc Hd Hacc.
  - simpl. lia.
  - rewrite all_digits_cons in Hd. apply andb_prop in Hd. destruct Hd as [Hc Hs].
    pose proof (is_digit_value c Hc) as Hdc.
    simpl digits_value_from. simpl String.length.
    set (d := Z.of_nat (nat_of_ascii c) - 48) in *.
    destruct (IH (acc * 10 + d) Hs ltac:(lia)) as [Hlo Hhi].
    rewrite Nat2Z.inj_succ, Z.pow_succ_r by lia.
    assert (0 < 10 ^ Z.of_nat (String.length s)) by (apply Z.pow_pos_nonneg; lia).
    split; nia.
Qed.

Lemma parse_uint_digits_value (s : string) (acc : Z) :
  all_digits s = true -> 0 <= acc -> digits_value_from acc s <= MaxUint64 ->
  parse_uint_digits acc s = (digits_value_from acc s, NumOk).
Proof.
  revert acc; induction s as [|c s IH]; intros acc Hd Hacc Hmax; [reflexivity|].
  pose proof (digits_value_from_bound (String c s) acc Hd Hacc) as [Hlo _].
  rewrite all_digits_cons in Hd. apply andb_prop in Hd. destruct Hd as [Hc Hs].
  pose proof (is_digit_value c Hc) as Hdc.
  simpl digits_value_from in *. simpl parse_uint_digits.
  set (d := Z.of_nat (nat_of_ascii c) - 48) in *.
  destruct (digits_value_from_bound s (acc * 10 + d) Hs ltac:(lia)) as [Hlo' _].
  assert (1 <= 10 ^ Z.of_nat (String.length s))
    by (pose proof (Z.pow_pos_nonneg 10 (Z.of_nat (String.length s))); lia).
  replace (in_range 0 9 d) with true
    by (symmetry; unfold in_range; apply andb_true_intro; split; apply Z.leb_le; lia).
  replace (MaxUint64 / 10 + 1) with 1844674407370955162 by reflexivity.
  unfold MaxUint64 in *.
  replace (1844674407370955162 <=? acc) with false
    by (symmetry; apply Z.leb_gt; nia).
  replace (2 ^ 64 - 1 <? acc * 10 + d) with false
    by (symmetry; apply Z.ltb_ge; nia).
  apply IH; [exact Hs | lia | exact Hmax].
Qed.

(** [ParseInt] reads a decimal digit string within int64 as its value. *)
Lemma ParseInt_digits (s : string) :
  s <> EmptyString -> all_digits s = true -> digits_value s <= MaxInt64 ->
  ParseInt s = (digits_value s, None).
Proof.
  intros Hne Hd Hmax. destruct s as [|c s']; [congruence|].
  pose proof Hd as Hd'. rewrite all_digits_cons in Hd'.
  apply andb_prop in Hd'. destruct Hd' as [Hc _].
  unfold ParseInt.
  replace (Ascii.eqb c "+") with false
    by (symmetry; apply Ascii.eqb_neq; intros ->; discriminate).
  replace (Ascii.eqb c "-") with false
    by (symmetry; apply Ascii.eqb_neq; intros ->; discriminate).
  unfold ParseUint. unfold digits_value in *.
  rewrite parse_uint_digits_value
    by first [exact Hd | lia | unfold MaxInt64, MaxUint64 in *; lia].
  unfold MaxInt64 in Hmax.
  replace (2 ^ 63 <=? digits_value_from 0 (String c s')) with false
    by (symmetry; apply Z.leb_gt; lia).
  reflexivity.
Qed.

Lemma ParseInt_short_digits (s : string) :
  s <> EmptyString -> all_digits s = true -> (String.length s <= 18)%nat ->
  ParseInt s = (digits_value s, None).
Proof.
  intros Hne Hd Hl. apply ParseInt_digits; [exact Hne | exact Hd|].
  destruct (digits_value_from_bound s 0 Hd ltac:(lia)) as [_ Hhi].
  unfold digits_value. unfold MaxInt64.
  assert (10 ^ Z.of_nat (String.length s) <= 10 ^ 18)
    by (apply Z.pow_le_mono_r; lia).
  lia.
Qed.

Lemma numstat_line_no_error (line : string) :
  Forall (fun r => (String.length r <= 18)%nat) (digit_runs line) ->
  exists ins del, numstat_line line None = (ins, del, None).
Proof.
  intros Hl. unfold numstat_line.
  pose proof (digit_runs_digits line) as Hd.
  destruct (digit_runs line) as [|n0 [|n1 [|n2 rest]]]; try (do 2 eexists; reflexivity).
  inversion Hd as [|? ? [Hn0 Hd0] Hd']; subst.
  inversion Hd' as [|? ? [Hn1 Hd1] _]; subst.
  inversion Hl as [|? ? Hl0 Hl']; subst. inversion Hl' as [|? ? Hl1 _]; subst.
  rewrite (TrimSpace_digits n0 Hn0 Hd0), (TrimSpace_digits n1 Hn1 Hd1).
  rewrite (ParseInt_short_digits n0 Hn0 Hd0 Hl0), (ParseInt_short_digits n1 Hn1 Hd1 Hl1).
  do 2 eexists. reflexivity.
Qed.

(** X10: when no digit run of the numstat output is longer than 18 digits
    (so every run fits in int64), [numStatCommitsPerUser] returns its
    statistics with a nil error. *)
Theorem numStatCommitsPerUser_no_error (stdout user : string) :
  Forall (fun l => Forall (fun r => (String.length r <= 18)%nat) (digit_runs l))
    (drop_last_line (Split stdout NL)) ->
  exists st, numStatCommitsPerUser stdout None user = Ret (Some st) None.
Proof.
  intros H. unfold numStatCommitsPerUser. fold NL.
  assert (Hl : forall i d, exists i' d',
             numstat_lines (drop_last_line (Split stdout NL)) i d None = (i', d', None)).
  { induction H as [|line lines Hline _ IH]; intros i d.
    - do 2 eexists. reflexivity.
    - destruct (numstat_line_no_error line Hline) as [ins [del E]].
      simpl. rewrite E. apply IH. }
  destruct (Hl 0 0) as [i' [d' ->]]. eexists. reflexivity.
Qed.

Lemma numStatCommitsPerUser_no_error_witness :
  Forall (fun l => Forall (fun r => (String.length r <= 18)%nat) (digit_runs l))
    (drop_last_line (Split numstat_example_letters NL))
  /\ exists st, numStatCommitsPerUser numstat_example_letters None "u" = Ret (Some st) None.
Proof.
  assert (H : Forall (fun l => Forall (fun r => (String.length r <= 18)%nat) (digit_runs l))
                (drop_last_line (Split numstat_example_letters NL)))
    by (vm_compute; repeat (apply List.Forall_cons || apply List.Forall_nil); lia).
  split; [exact H|].
  exact (numStatCommitsPerUser_no_error _ "u" H).
Defined.

(* ------------------------------------------------------------------ *)
(** ** [TrimSpace] on ASCII text surrounded by ASCII white space *)

Lemma bytes_of_app (a b : string) : bytes_of (a ++ b) = (bytes_of a ++ bytes_of b)%list.
Proof. unfold bytes_of. now rewrite list_ascii_of_string_app, map_app. Qed.

Lemma trim_left_singletons (l1 l2 : list Z) (b : Z) :
  Forall (fun x => IsSpace x = true) l1 -> IsSpace b = false ->
  trim_left_runes (map (fun x => (x, [x])) (l1 ++ b :: l2)) = b :: l2.
Proof.
  intros H1 Hb. induction H1 as [|x l1 Hx _ IH]; simpl.
  - rewrite Hb. simpl. f_equal. apply concat_singletons.
  - now rewrite Hx.
Qed.

Lemma DecodeLastRune_ascii (p : list Z) (b : Z) :
  0 <= b < 128 -> DecodeLastRune (p ++ [b]) = (b, 1%nat).
Proof.
  intros Hb. unfold DecodeLastRune. rewrite rev_app_distr. simpl.
  now replace (b <? 128) with true by (symmetry; apply Z.ltb_lt; lia).
Qed.

Lemma trim_right_step (f : nat) (q : list Z) (x : Z) :
  0 <= x < 128 ->
  trim_right_fuel (S f) (q ++ [x]) = if IsSpace x then trim_right_fuel f q else (q ++ [x])%list.
Proof.
  intros Hx. simpl.
  destruct (q ++ [x])%list as [|y ys] eqn:E; [destruct q; discriminate|].
  rewrite <- E, DecodeLastRune_ascii by exact Hx.
  destruct (IsSpace x); [|reflexivity].
  rewrite length_app. simpl. replace (List.length q + 1 - 1)%nat with (List.length q) by lia.
  rewrite firstn_app, firstn_all, Nat.sub_diag. simpl. now rewrite app_nil_r.
Qed.

Lemma trim_right_spaces (p l3 : list Z) (b : Z) (f : nat) :
  Forall (fun x => 0 <= x < 128 /\ IsSpace x = true) l3 ->
  0 <= b < 128 -> IsSpace b = false -> (List.length l3 < f)%nat ->
  trim_right_fuel f ((p ++ [b]) ++ l3) = (p ++ [b])%list.
Proof.
  intros H3 Hb Hsb. revert f.
  induction l3 as [|x l3 IH] using rev_ind; intros f Hf.
  - destruct f as [|f]; [simpl in Hf; lia|].
    rewrite app_nil_r, trim_right_step by exact Hb. now rewrite Hsb.
  - apply List.Forall_app in H3. destruct H3 as [H3 Hx].
    inversion Hx as [|? ? [Hx1 Hx2] _]; subst.
    rewrite length_app in Hf. simpl in Hf.
    destruct f as [|f]; [lia|].
    rewrite app_assoc, trim_right_step by exact Hx1. rewrite Hx2.
    apply IH; [exact H3 | lia].
Qed.

Lemma TrimSpace_ascii (w1 s w2 : string) :
  Forall (fun x => 0 <= x < 128 /\ IsSpace x = true) (bytes_of w1) ->
  Forall (fun x => 0 <= x < 128 /\ IsSpace x = true) (bytes_of w2) ->
  Forall (fun x => 0 <= x < 128) (bytes_of s) ->
  bytes_of s <> [] ->
  IsSpace (List.hd 0 (bytes_of s)) = false -> IsSpace (List.last (bytes_of s) 0) = false ->
  TrimSpace (w1 ++ s ++ w2) = s.
Proof.
  intros H1 H2 Hs Hne Hhd Hlast. unfold TrimSpace, runes.
  rewrite !bytes_of_app.
  rewrite runes_ascii.
  2: lia.
  2: { apply List.Forall_app; split;
       [eapply List.Forall_impl; [|exact H1]; simpl; tauto|].
       apply List.Forall_app; split; [exact Hs|].
       eapply List.Forall_impl; [|exact H2]; simpl; tauto. }
  destruct (bytes_of s) as [|b rest] eqn:E; [congruence|]. simpl in Hhd.
  rewrite <- app_comm_cons.
  rewrite (trim_left_singletons (bytes_of w1) (rest ++ bytes_of w2) b)
    by first [exact Hhd | eapply List.Forall_impl; [|exact H1]; simpl; tauto].
  destruct (exists_last Hne) as [before [b' Eb]].
  rewrite Eb in Hlast, Hs. rewrite List.last_last in Hlast.
  apply List.Forall_app in Hs. destruct Hs as [_ Hb'].
  inversion Hb' as [|? ? Hb'1 _]; subst.
  change (b :: rest ++ bytes_of w2)%list with ((b :: rest) ++ bytes_of w2)%list.
  rewrite Eb, trim_right_spaces; [| exact H2 | exact Hb'1 | exact Hlast |].
  - rewrite <- Eb, <- E. apply string_of_bytes_of.
  - rewrite !length_app. simpl. lia.
Qed.

(* ------------------------------------------------------------------ *)
(** ** Commit counting *)

(** X11: [commitsCount] returns the number printed by [git rev-list
    --count] (a decimal line within int64); the [git log] fallback counts
    newlines plus one, so it never reports fewer than one commit, even on
    empty output; a git error gives 0 and that error. *)
Theorem commitsCount_spec (s stdout : string) (isFallback : bool) (e : error) :
  s <> EmptyString -> all_digits s = true -> digits_value s <= MaxInt64 ->
  commitsCount false (s ++ NL) None = (digits_value s, None)
  /\ 1 <= fst (commitsCount true stdout None)
  /\ commitsCount true EmptyString None = (1, None)
  /\ commitsCount isFallback stdout (Some e) = (0, Some e).
Proof.
  intros Hne Hd Hmax. split; [|split; [|split]].
  - unfold commitsCount.
    replace (s ++ NL) with (EmptyString ++ s ++ NL) by reflexivity.
    pose proof (bytes_of_digits s Hd) as Hb.
    assert (Hbne : bytes_of s <> []) by (destruct s; [congruence | discriminate]).
    rewrite TrimSpace_ascii.
    + now apply ParseInt_digits.
    + constructor.
    + repeat constructor; lia.
    + eapply List.Forall_impl; [|exact Hb]. simpl. lia.
    + exact Hbne.
    + destruct (bytes_of s) as [|b l]; [congruence|]. simpl.
      apply digit_not_space. inversion Hb; auto.
    + apply digit_not_space. rewrite List.Forall_forall in Hb. apply Hb.
      destruct (exists_last Hbne) as [before [b' ->]]. rewrite List.last_last.
      apply in_or_app. right. now left.
  - simpl. lia.
  - reflexivity.
  - reflexivity.
Qed.

Lemma commitsCount_spec_witness :
  commitsCount false ("42" ++ NL) None = (42, None).
Proof.
  assert (H := commitsCount_spec "42" EmptyString false ErrEOF
                 ltac:(discriminate) eq_refl ltac:(vm_compute; discriminate)).
  exact (proj1 H).
Defined.

(* ------------------------------------------------------------------ *)
(** ** Submodules: parsing a section, the cache *)

Lemma count_byte_bytes (a : ascii) (v : string) :
  Forall (fun b => b <> Z.of_nat (nat_of_ascii a)) (bytes_of v) -> count_byte a v = 0%nat.
Proof.
  induction v as [|c v IH]; intros H; [reflexivity|].
  inversion H as [|? ? Hc Hv]; subst. simpl.
  destruct (Ascii.eqb c a) eqn:E; [apply Ascii.eqb_eq in E; subst; contradiction|].
  simpl. now apply IH.
Qed.

Lemma plain_value_spec (v : string) :
  plain_value v = true ->
  v <> EmptyString
  /\ Forall (fun b => 32 <= b <= 126 /\ b <> 61) (bytes_of v)
  /\ List.hd 0 (bytes_of v) <> 32 /\ List.last (bytes_of v) 0 <> 32.
Proof.
  unfold plain_value. intros H.
  repeat match goal with H : _ && _ = true |- _ => apply andb_prop in H; destruct H end.
  apply negb_true_iff in H, H1, H0.
  apply String.eqb_neq in H. apply Z.eqb_neq in H1. apply Z.eqb_neq in H0.
  split; [exact H|]. split; [|split; assumption].
  apply List.Forall_forall. intros b Hb.
  pose proof (proj1 (forallb_forall _ _) H2 b Hb) as Hb'. simpl in Hb'.
  repeat match goal with H : _ && _ = true |- _ => apply andb_prop in H; destruct H end.
  apply negb_true_iff, Z.eqb_neq in H4. apply Z.leb_le in H3. apply Z.leb_le in H5. lia.
Qed.

Lemma printable_not_space (b : Z) : 32 <= b <= 126 -> b <> 32 -> IsSpace b = false.
Proof.
  intros Hb Hn. unfold IsSpace.
  replace (b <=? 255) with true by (symmetry; apply Z.leb_le; lia).
  simpl. repeat rewrite (proj2 (Z.eqb_neq _ _)) by lia. reflexivity.
Qed.

Lemma last_in {A} (l : list A) (d : A) : l <> [] -> In (List.last l d) l.
Proof.
  intros Hne. destruct (exists_last Hne) as [l' [a ->]].
  rewrite List.last_last. apply in_or_app. right. now left.
Qed.

Lemma TrimSpace_lead_space (P : string) :
  plain_value P = true -> TrimSpace (" " ++ P) = P.
Proof.
  intros HP. destruct (plain_value_spec P HP) as [Hne [Hb [Hhd Hlast]]].
  assert (Hbne : bytes_of P <> []) by (destruct P; [congruence | discriminate]).
  rewrite <- (str_app_nil_r P) at 1.
  apply TrimSpace_ascii.
  - repeat constructor; lia.
  - constructor.
  - eapply List.Forall_impl; [|exact Hb]. simpl. lia.
  - exact Hbne.
  - rewrite List.Forall_forall in Hb.
    destruct (bytes_of P) as [|b l] eqn:E; [congruence|]. simpl in *.
    apply printable_not_space; [apply Hb; now left | exact Hhd].
  - rewrite List.Forall_forall in Hb. apply printable_not_space; [|exact Hlast].
    apply Hb, last_in, Hbne.
Qed.






Lemma submodule_header_line (st : submodule_scan) (h : string) :
  HasPrefix h "[submodule" = true ->
  submodule_line st h = Some (mkSubmoduleScan true (pending_path st) (cache st)).
Proof. intros H. unfold submodule_line. now rewrite H. Qed.

Lemma count_eq_plain (v : string) : plain_value v = true -> count_byte "=" v = 0%nat.
Proof.
  intros H. destruct (plain_value_spec v H) as [_ [Hb _]].
  apply count_byte_bytes. eapply List.Forall_impl; [|exact Hb].
  simpl. intros b Hb'. change (Z.of_nat (nat_of_ascii "=")) with 61. lia.
Qed.


Lemma submodule_url_line (st : submodule_scan) (U : string) :
  ismodule st = true -> plain_value U = true ->
  submodule_line st (TAB ++ "url = " ++ U)
  = Some (mkSubmoduleScan false (pending_path st)
            (<[pending_path st := mkSubModule (pending_path st) U]> (cache st))).
Proof.
  intros Hm HU. unfold submodule_line.
  replace (HasPrefix (TAB ++ "url = " ++ U) "[submodule") with false by reflexivity.
  rewrite Hm.
  change (TAB ++ "url = " ++ U) with ((TAB ++ "url ") ++ String "=" (" " ++ U)).
  rewrite split_byte_app by reflexivity.
  rewrite split_byte_absent by exact (count_eq_plain U HU).
  simpl hd. replace (TrimSpace (TAB ++ "url ")) with "url" by (vm_compute; reflexivity).
  simpl. now rewrite TrimSpace_lead_space.
Qed.

(** X12: [GetSubModules] stores the map it returns in the commit's cache
    and changes nothing else in the commit; every later [GetSubModule] on
    that commit is answered from the cached map, without reading the tree
    again. *)
Theorem GetSubModules_cache (c c' : Commit) (m : gmap string SubModule) :
  GetSubModules c = (Ret (Some m) None, c') ->
  c' = with_cache c (Some m)
  /\ forall p, GetSubModule c' p = (Ret (m !! p) None, c').
Proof.
  intros H. assert (Hc' : c' = with_cache c (Some m)).
  { unfold GetSubModules in H. destruct (submoduleCache c) as [m0|] eqn:Ec.
    - injection H as -> <-. destruct c; simpl in *; subst; reflexivity.
    - destruct (GetTreeEntryByPath c ".gitmodules") as [e|[data|e]]; try discriminate.
      destruct (submodule_lines _ _) as [st|]; [|discriminate].
      injection H as -> <-. reflexivity. }
  split; [exact Hc'|]. intros p. subst c'.
  unfold GetSubModule, GetSubModules. simpl.
  destruct (m !! p); reflexivity.
Qed.


(** X14: a [[submodule] header line followed directly by a url line
    [TAB url = U] (U printable, without '=' and surrounding spaces) and no
    path line records [SubModule{p, U}] under the path [p] left pending by
    the previous section (the empty string at the start of the file),
    overwriting that entry, and ends the section. *)
Theorem submodule_section_without_path (st : submodule_scan) (h U : string) :
  HasPrefix h "[submodule" = true -> plain_value U = true ->
  submodule_lines st [h; TAB ++ "url = " ++ U]
  = Some (mkSubmoduleScan false (pending_path st)
            (<[pending_path st := mkSubModule (pending_path st) U]> (cache st))).
Proof.
  intros Hpre HU. simpl submodule_lines.
  rewrite submodule_header_line by exact Hpre.
  rewrite submodule_url_line by first [reflexivity | exact HU].
  reflexivity.
Qed.

Lemma GetSubModules_cache_witness :
  GetSubModules (commit_with_gitmodules gitmodules_x)
  = (Ret (Some {[ "libs/x" := mkSubModule "libs/x" "https://example.com/x.git" ]}) None,
     with_cache (commit_with_gitmodules gitmodules_x)
       (Some {[ "libs/x" := mkSubModule "libs/x" "https://example.com/x.git" ]}))
  /\ GetSubModule (with_cache (commit_with_gitmodules gitmodules_x)
                     (Some {[ "libs/x" := mkSubModule "libs/x" "https://example.com/x.git" ]}))
       "libs/x"
     = (Ret (Some (mkSubModule "libs/x" "https://example.com/x.git")) None,
        with_cache (commit_with_gitmodules gitmodules_x)
          (Some {[ "libs/x" := mkSubModule "libs/x" "https://example.com/x.git" ]})).
Proof.
  assert (H : GetSubModules (commit_with_gitmodules gitmodules_x)
    = (Ret (Some {[ "libs/x" := mkSubModule "libs/x" "https://example.com/x.git" ]}) None,
       with_cache (commit_with_gitmodules gitmodules_x)
         (Some {[ "libs/x" := mkSubModule "libs/x" "https://example.com/x.git" ]})))
    by (vm_compute; reflexivity).
  split; [exact H|].
  exact (proj2 (GetSubModules_cache _ _ _ H) "libs/x").
Defined.


Lemma submodule_section_without_path_witness :
  submodule_lines
    (mkSubmoduleScan false "libs/x" {[ "libs/x" := mkSubModule "libs/x" "https://a" ]})
    ["[submodule " ++ QUOTE ++ "y" ++ QUOTE ++ "]"; TAB ++ "url = " ++ "https://b"]
  = Some (mkSubmoduleScan false "libs/x" {[ "libs/x" := mkSubModule "libs/x" "https://b" ]}).
Proof.
  rewrite (submodule_section_without_path _ ("[submodule " ++ QUOTE ++ "y" ++ QUOTE ++ "]")
             "https://b" eq_refl eq_refl).
  simpl. now rewrite insert_singleton.
Defined.

(* ------------------------------------------------------------------ *)
(** ** Page edges of the code search *)

Lemma split_from_nonempty (sep : string) (k : nat) (s : string) :
  split_from sep k s <> [].
Proof.
  revert k; induction s as [|c s IH]; intros k; [simpl; congruence|].
  destruct k as [|k]; [|apply IH]. cbn [split_from].
  destruct (String.prefix sep (String c s)); [intros H; inversion H|].
  destruct (split_from sep 0 s); intros H; inversion H.
Qed.

(** X15: with a non-empty output, a page number of 0 or less with a
    positive page size (both at least -2^31 and at most 2^31, so the
    products do not wrap around) makes the slice's low bound negative, so
    [getRangeOfMatches] panics; a page size of 0 gives an empty window,
    so it returns no match and the command's error. *)
Theorem getRangeOfMatches_page_edges (stdout : string) (err : option error)
  (opts : RepoSearchOptions) :
  stdout <> EmptyString ->
  (Page opts <= 0 -> 0 < PageSize opts -> - 2 ^ 31 <= Page opts -> PageSize opts <= 2 ^ 31 ->
   getRangeOfMatches stdout err opts = Panic)
  /\ (PageSize opts = 0 -> getRangeOfMatches stdout err opts = Ret [] err).
Proof.
  intros Hs. unfold getRangeOfMatches.
  destruct stdout as [|c s]; [congruence|]. simpl (String.length _ <=? 0)%nat.
  cbv iota. unfold page_window, go_slice.
  set (results := Split (String c s) (String nl (String nl EmptyString))).
  assert (Hn : (1 <= List.length results)%nat)
    by (destruct results eqn:E; [exfalso; eapply split_from_nonempty; exact E | simpl; lia]).
  split.
  - intros Hp Hz Hlo Hhi.
    rewrite (wrap64_small (Page opts * PageSize opts))
      by (unfold MinInt64, MaxInt64; nia).
    rewrite (wrap64_small (Page opts - 1)) by (unfold MinInt64, MaxInt64; lia).
    rewrite (wrap64_small ((Page opts - 1) * PageSize opts))
      by (unfold MinInt64, MaxInt64; nia).
    replace (0 <=? (Page opts - 1) * PageSize opts) with false
      by (symmetry; apply Z.leb_gt; nia).
    reflexivity.
  - intros Hz. rewrite Hz, !Z.mul_0_r.
    change (wrap64 0) with 0.
    replace (0 <? Z.of_nat (List.length results)) with true
      by (symmetry; apply Z.ltb_lt; lia).
    replace (0 <=? Z.of_nat (List.length results)) with true
      by (symmetry; apply Z.leb_le; lia).
    reflexivity.
Qed.

Lemma getRangeOfMatches_page_edges_witness :
  getRangeOfMatches ("a:b" ++ NL ++ "x") None (opts_page 0 1) = Panic
  /\ getRangeOfMatches ("a:b" ++ NL ++ "x") None (opts_page 3 0) = Ret [] None.
Proof.
  split.
  - apply (proj1 (getRangeOfMatches_page_edges ("a:b" ++ NL ++ "x") None (opts_page 0 1)
      ltac:(discriminate))); unfold opts_page; cbn; lia.
  - apply (proj2 (getRangeOfMatches_page_edges ("a:b" ++ NL ++ "x") None (opts_page 3 0)
      ltac:(discriminate))); reflexivity.
Defined.

(* ------------------------------------------------------------------ *)
(** ** Parsing the [uniq -c] histogram *)

Lemma spaces_only_bytes (w : string) :
  spaces_only w = true -> Forall (fun x => x = 32) (bytes_of w).
Proof.
  induction w as [|c w IH]; intros H; [constructor|].
  simpl in H. apply andb_prop in H. destruct H as [Hc Hw].
  apply Ascii.eqb_eq in Hc. subst c. simpl. constructor; [reflexivity | now apply IH].
Qed.

Lemma all_digits_bytes (n : string) :
  all_digits n = true -> Forall (fun x => 48 <= x <= 57) (bytes_of n).
Proof.
  induction n as [|c n IH]; intros H; [constructor|].
  rewrite all_digits_cons in H. apply andb_prop in H. destruct H as [Hc Hn].
  pose proof (is_digit_value c Hc). simpl. constructor; [lia | now apply IH].
Qed.

Lemma TrimSpace_count (w1 n w2 : string) :
  spaces_only w1 = true -> spaces_only w2 = true -> n <> EmptyString ->
  all_digits n = true -> TrimSpace (w1 ++ n ++ w2) = n.
Proof.
  intros H1 H2 Hne Hd.
  pose proof (all_digits_bytes n Hd) as Hb.
  assert (Hbne : bytes_of n <> []) by (destruct n; [congruence | discriminate]).
  apply TrimSpace_ascii.
  - eapply List.Forall_impl; [|exact (spaces_only_bytes w1 H1)]. intros x ->. split; [lia | reflexivity].
  - eapply List.Forall_impl; [|exact (spaces_only_bytes w2 H2)]. intros x ->. split; [lia | reflexivity].
  - eapply List.Forall_impl; [|exact Hb]. simpl. lia.
  - exact Hbne.
  - apply digit_not_space. rewrite List.Forall_forall in Hb. apply Hb.
    destruct (bytes_of n); [congruence | now left].
  - apply digit_not_space. rewrite List.Forall_forall in Hb. apply Hb. now apply last_in.
Qed.

Lemma index_first_byte (c : ascii) (a d : string) :
  count_byte c a = 0%nat ->
  String.index 0 (String c EmptyString) (a ++ String c d) = Some (String.length a).
Proof.
  induction a as [|x a IH]; intros H.
  - rewrite str_app_nil_l. simpl. destruct (ascii_dec c c); [|congruence].
    now rewrite prefix_empty.
  - rewrite str_app_cons. simpl in H |- *.
    destruct (ascii_dec c x) as [->|Hne].
    + rewrite Ascii.eqb_refl in H. simpl in H. lia.
    + rewrite IH; [reflexivity|]. destruct (Ascii.eqb x c); simpl in H; lia.
Qed.

Lemma substring_app_prefix (a t : string) :
  substring 0 (String.length a) (a ++ t) = a.
Proof.
  induction a as [|x a IH]; [rewrite str_app_nil_l; destruct t; reflexivity|]. rewrite str_app_cons. simpl. now rewrite IH.
Qed.

Lemma substring_app_skip (a t : string) (k m : nat) :
  substring (String.length a + k) m (a ++ t) = substring k m t.
Proof.
  induction a as [|x a IH]; [reflexivity|]. rewrite str_app_cons. simpl. exact IH.
Qed.

Lemma substring_all (d : string) : substring 0 (String.length d) d = d.
Proof. induction d as [|x d IH]; [reflexivity|]. simpl. now rewrite IH. Qed.

Lemma SplitN2_first (c : ascii) (a d : string) :
  count_byte c a = 0%nat ->
  SplitN2 (a ++ String c d) (String c EmptyString) = [a; d].
Proof.
  intros H. unfold SplitN2. rewrite index_first_byte by exact H.
  rewrite substring_app_prefix. f_equal. f_equal.
  rewrite substring_app_skip. rewrite length_str_app. simpl.
  replace (String.length a + S (String.length d) - (String.length a + 1))%nat
    with (String.length d) by lia.
  apply substring_all.
Qed.

Lemma uniq_line_parts (r : string * string * string * string) :
  uniq_line_ok r ->
  let '(w1, n, w2, d) := r in
  SplitN2 (uniq_line r) ":" = [w1 ++ n ++ w2; d] /\ TrimSpace (w1 ++ n ++ w2) = n
  /\ count_byte nl (uniq_line r) = 0%nat.
Proof.
  destruct r as [[[w1 n] w2] d]. simpl. intros (H1 & H2 & Hne & Hd & Hmax & Hnl).
  assert (Hc : forall c, c <> " "%char -> is_digit c = false ->
            count_byte c (w1 ++ n ++ w2) = 0%nat).
  { intros c Hsp Hdig. rewrite !count_byte_app.
    assert (Hs : forall w, spaces_only w = true -> count_byte c w = 0%nat).
    { induction w as [|x w IH]; intros Hw; [reflexivity|].
      change (spaces_only (String x w)) with (Ascii.eqb x " " && spaces_only w) in Hw.
      apply andb_prop in Hw. destruct Hw as [Hx Hw].
      apply Ascii.eqb_eq in Hx. subst x. cbn [count_byte].
      destruct (Ascii.eqb_spec " " c); [congruence|]. rewrite IH by exact Hw. reflexivity. }
    assert (Hn : count_byte c n = 0%nat).
    { clear - Hd Hdig. induction n as [|x n IH]; [reflexivity|].
      rewrite all_digits_cons in Hd. apply andb_prop in Hd. destruct Hd as [Hx Hd].
      cbn [count_byte]. destruct (Ascii.eqb_spec x c) as [->|]; [congruence|]. rewrite IH by exact Hd. reflexivity. }
    rewrite Hs, Hn, Hs by assumption. reflexivity. }
  replace (w1 ++ n ++ w2 ++ ":" ++ d) with ((w1 ++ n ++ w2) ++ String ":" d)
    by (rewrite !str_app_assoc; reflexivity).
  split; [|split].
  - apply SplitN2_first. apply Hc; [discriminate | reflexivity].
  - now apply TrimSpace_count.
  - rewrite count_byte_app, Hc by (discriminate || reflexivity). simpl. exact Hnl.
Qed.

Lemma count_lines_uniq (user : string) (rows : list (string * string * string * string))
  (c : CommitsInfo) :
  Forall uniq_line_ok rows ->
  count_lines user (map uniq_line rows) c
  = Ret (Some (mkCommitsInfo (Info c ++ map (uniq_row user) rows)%list
                 (uniq_total_from (Total c) rows))) None.
Proof.
  revert c; induction rows as [|r rows IH]; intros c Hok.
  - simpl. rewrite app_nil_r. now destruct c.
  - inversion Hok as [|? ? Hr Hrows]; subst.
    pose proof (uniq_line_parts r Hr) as Hp.
    destruct r as [[[w1 n] w2] d]. destruct Hp as [Hsplit [Htrim _]].
    destruct Hr as (_ & _ & Hne & Hdig & Hmax & _).
    cbn [map count_lines]. rewrite Hsplit. cbn [hd]. rewrite Htrim.
    rewrite (ParseInt_digits n Hne Hdig Hmax). cbn [fst].
    rewrite IH by exact Hrows. cbn [Info Total].
    rewrite <- app_assoc. reflexivity.
Qed.

Lemma split_uniq_output (rows : list (string * string * string * string)) :
  Forall uniq_line_ok rows ->
  Split (uniq_output rows) NL = (map uniq_line rows ++ [EmptyString])%list.
Proof.
  induction rows as [|r rows IH]; intros Hok; [reflexivity|].
  inversion Hok as [|? ? Hr Hrows]; subst.
  pose proof (uniq_line_parts r Hr) as Hp.
  assert (Hnl : count_byte nl (uniq_line r) = 0%nat)
    by (destruct r as [[[w1 n] w2] d]; apply Hp).
  change (Split (uniq_line r ++ String nl (uniq_output rows)) (String nl EmptyString)
          = (uniq_line r :: map uniq_line rows ++ [EmptyString])%list).
  rewrite split_byte_app by exact Hnl.
  fold NL. rewrite IH by exact Hrows. reflexivity.
Qed.

Lemma drop_last_line_snoc (l : list string) (x : string) :
  drop_last_line (l ++ [x])%list = l.
Proof.
  unfold drop_last_line. rewrite length_app. simpl.
  rewrite Nat.add_sub, firstn_app, firstn_all, Nat.sub_diag. simpl. apply app_nil_r.
Qed.

(** X16: when the output is a non-empty list of lines, each in
    [uniq -c]'s form (blanks, a decimal count that fits in int64, blanks,
    [':'] and a date without newline), [commitsCountPerCollab] returns one row per line, in order,
    holding the line's count and date and the user label, and the total is
    the sum of the counts (with int64 wrap-around). *)
Theorem commitsCountPerCollab_uniq_lines (rows : list (string * string * string * string))
  (user : string) :
  rows <> [] -> Forall uniq_line_ok rows ->
  commitsCountPerCollab (uniq_output rows) None user
  = Ret (Some (mkCommitsInfo
                 (map (uniq_row (if String.eqb user "" then "all" else user)) rows)
                 (uniq_total_from 0 rows))) None.
Proof.
  intros Hne Hok. unfold commitsCountPerCollab.
  rewrite split_uniq_output, drop_last_line_snoc by exact Hok.
  destruct rows as [|r rows]; [congruence|].
  cbn [map]. rewrite <- (map_cons uniq_line r rows).
  rewrite count_lines_uniq by exact Hok. reflexivity.
Qed.

Lemma commitsCountPerCollab_uniq_lines_witness :
  commitsCountPerCollab
    (uniq_output [("   ", "3", " ", "17-Oct-2026"); ("  ", "12", " ", "18-Oct-2026")])
    None EmptyString
  = Ret (Some (mkCommitsInfo [mkCommitsPerUser 3 "17-Oct-2026" "all";
                              mkCommitsPerUser 12 "18-Oct-2026" "all"] 15)) None.
Proof.
  rewrite (commitsCountPerCollab_uniq_lines
             [("   ", "3", " ", "17-Oct-2026"); ("  ", "12", " ", "18-Oct-2026")]
             EmptyString ltac:(discriminate)).
  - vm_compute. reflexivity.
  - repeat (apply List.Forall_cons || apply List.Forall_nil);
      unfold uniq_line_ok; repeat split; try discriminate; vm_compute; congruence.
Defined.
